(** * EdgeOS API: invoice table layout and wrapped-image framing

    A shallow embedding of the layout code of [app/core/invoice.py] and of
    [create_framed_image] in [app/core/edge_wrapped.py].

    Conventions of the embedding.
    - Python [float] values are embedded as exact rationals ([Q]); every
      equation below is an equation of exact arithmetic, which is what the
      layout code states "up to floating-point tolerance".
    - Python [int] values are [Z]; [str] values are [string].
    - A Python exception is a [Raise] in the [result] monad.
    - [reportlab] and [PIL] are outside the repository: text measurement, URL
      parsing, fetching and image decoding enter as section variables, and
      the PDF is described by the list of flowables handed to [doc.build]. *)

From Stdlib Require Import ZArith QArith Qabs Qminmax Qround Qfield Lia Lqa.
From Stdlib Require Import List Bool Ascii String.
From Stdlib Require Import Permutation.
Import ListNotations.

Local Open Scope string_scope.

(** ** Exceptions *)

Inductive exn : Type :=
| ZeroDivisionError
| IndexError
| OtherError (msg : string).

Inductive result (A : Type) : Type :=
| Ok (a : A)
| Raise (e : exn).

Arguments Ok {A} a.
Arguments Raise {A} e.

Definition bind {A B : Type} (m : result A) (k : A -> result B) : result B :=
  match m with
  | Ok a => k a
  | Raise e => Raise e
  end.

Notation "x <- m ;; k" := (bind m (fun x => k))
  (at level 61, m at next level, right associativity).

Fixpoint mapM {A B : Type} (f : A -> result B) (l : list A) : result (list B) :=
  match l with
  | [] => Ok []
  | a :: l' => b <- f a ;; bs <- mapM f l' ;; Ok (b :: bs)
  end.

(** [a / b] on floats: raises [ZeroDivisionError] when [b] is zero. *)
Definition py_div (a b : Q) : result Q :=
  if Qeq_bool b 0 then Raise ZeroDivisionError else Ok (a / b).

(** Python's [max(a, b)] and [min(a, b)] keep the first argument on a tie. *)
Definition py_max (a b : Q) : Q := if Qlt_le_dec a b then b else a.
Definition py_min (a b : Q) : Q := if Qlt_le_dec b a then b else a.

(** [seq[i]] for a non-negative index. *)
Definition py_index {A : Type} (l : list A) (i : nat) : result A :=
  match nth_error l i with
  | Some a => Ok a
  | None => Raise IndexError
  end.

(** ** Strings *)

Module Str.

(** [s.replace(a, b)] for one-character [a] and [b]. *)
Fixpoint replace_char (a b : ascii) (s : string) : string :=
  match s with
  | EmptyString => EmptyString
  | String c s' =>
      String (if Ascii.eqb c a then b else c) (replace_char a b s')
  end.

(** [c.upper()] on the ASCII range. *)
Definition upper_char (c : ascii) : ascii :=
  let n := nat_of_ascii c in
  if (97 <=? n)%nat && (n <=? 122)%nat then ascii_of_nat (n - 32) else c.

Fixpoint upper (s : string) : string :=
  match s with
  | EmptyString => EmptyString
  | String c s' => String (upper_char c) (upper s')
  end.

(** [sep.join(l)]. *)
Definition join (sep : string) (l : list string) : string :=
  String.concat sep l.

Definition cons_head (c : ascii) (l : list string) : list string :=
  match l with
  | [] => [String c EmptyString]
  | w :: ws => String c w :: ws
  end.

(** [s.split(', ')]: the separator is matched left to right, and the
    result always has at least one (possibly empty) word. *)
Fixpoint split_comma_space (s : string) : list string :=
  match s with
  | EmptyString => [EmptyString]
  | String c rest =>
      match rest with
      | EmptyString => [String c EmptyString]
      | String d rest' =>
          if Ascii.eqb c "," && Ascii.eqb d " "
          then EmptyString :: split_comma_space rest'
          else cons_head c (split_comma_space rest)
      end
  end.

(** Decimal digits of a natural number, most significant first. *)
Definition digit (n : Z) : ascii := ascii_of_nat (48 + Z.to_nat n).

Fixpoint digits_fuel (fuel : nat) (n : Z) (acc : string) : string :=
  match fuel with
  | O => acc
  | S fuel' =>
      let acc' := String (digit (n mod 10)) acc in
      if (n <? 10)%Z then acc' else digits_fuel fuel' (n / 10)%Z acc'
  end.

Definition digits (n : Z) : string :=
  digits_fuel (S (Z.to_nat (Z.log2 n))) n EmptyString.

(** [str(n)] for an [int]. *)
Definition of_int (n : Z) : string :=
  if (n <? 0)%Z then String "-" (digits (- n)) else digits n.

(** Left padding with zeros up to [width] characters. *)
Fixpoint zeros (k : nat) : string :=
  match k with
  | O => EmptyString
  | S k' => String "0" (zeros k')
  end.

Definition zfill (width : nat) (s : string) : string :=
  zeros (width - String.length s) ++ s.

(** The [,] option of the format mini-language: a comma between groups of
    three digits, counted from the right. *)
Fixpoint group3 (s : string) : string :=
  match s with
  | EmptyString => EmptyString
  | String c s' =>
      let k := String.length s' in
      if (0 <? k)%nat && (k mod 3 =? 0)%nat
      then String c (String "," (group3 s'))
      else String c (group3 s')
  end.

End Str.

(** ** [app/core/invoice.py] *)

Module Invoice.

Local Open Scope Q_scope.

(** *** Helpers *)

Record datetime : Type := mk_datetime { year : Z; month : Z; day : Z }.

(** [dt.strftime('%Y-%m-%d')]. *)
Definition format_date (dt : datetime) : string :=
  Str.zfill 4 (Str.of_int (year dt)) ++ "-" ++
  Str.zfill 2 (Str.of_int (month dt)) ++ "-" ++
  Str.zfill 2 (Str.of_int (day dt)).

(** Rounding of a non-negative rational to the nearest integer, ties to
    even: the rounding of the [f] presentation type, here on the exact
    value. *)
Definition round_half_even (q : Q) : Z :=
  let a := Qnum q in
  let b := Zpos (Qden q) in
  let fl := (a / b)%Z in
  match (2 * (a mod b) ?= b)%Z with
  | Lt => fl
  | Gt => (fl + 1)%Z
  | Eq => if Z.even fl then fl else (fl + 1)%Z
  end.

(** [f'{value:.{decimals}f}'], with the [,] grouping option when
    [grouping] is set. *)
Definition format_fixed (grouping : bool) (decimals : nat) (value : Q)
  : string :=
  let p := (10 ^ Z.of_nat decimals)%Z in
  let n := round_half_even (Qabs value * inject_Z p) in
  let ip := Str.digits (n / p) in
  let fp := Str.zfill decimals (Str.digits (n mod p)) in
  (if Qlt_le_dec value 0 then "-" else EmptyString) ++
  (if grouping then Str.group3 ip else ip) ++
  (match decimals with O => EmptyString | S _ => "." ++ fp end).

Definition _format_money (value : Q) (decimals : nat) : string :=
  let s := format_fixed true decimals value in
  Str.replace_char "X" "."
    (Str.replace_char "." "," (Str.replace_char "," "X" s)).

Definition format_money (value : Q) : string := _format_money value 2.

Definition is_crypto_currency (code : string) : bool :=
  let u := Str.upper code in
  String.eqb u "BTC" || String.eqb u "ETH".

Definition format_currency (value : Q) (currency : string) : string :=
  let decimals := if is_crypto_currency currency then 8%nat else 2%nat in
  _format_money value decimals.

(** *** [reportlab.lib.units] and [reportlab.lib.pagesizes] *)

Definition inch : Q := 72.
Definition cm : Q := inch / 2.54.
Definition mm : Q := cm * 0.1.
Definition A4 : Q * Q := (210 * mm, 297 * mm).

(** *** [CroppedImageFitWidth] *)

Inductive canvas_op : Type :=
| saveState
| clipRect (x y w h : Q)
| drawImage (dx dy width height : Q)
| restoreState.

(** An [ImageReader] is used through [getSize()] only. *)
Record image_reader : Type := mk_reader { getSize : Z * Z }.

Record cropped_image : Type := mk_cropped {
  reader : image_reader;
  box_w : Q;
  box_h : Q
}.

(** [CroppedImageFitWidth.draw]: the operations sent to the canvas. *)
Definition draw (self : cropped_image) : result (list canvas_op) :=
  let (iw, ih) := getSize (reader self) in
  if (iw =? 0)%Z then Ok []
  else
    scale <- py_div (box_w self) (inject_Z iw) ;;
    let draw_w := box_w self in
    let draw_h := inject_Z ih * scale in
    let dx := 0 in
    let dy := (box_h self - draw_h) / 2 in
    Ok [ saveState;
         clipRect 0 0 (box_w self) (box_h self);
         drawImage dx dy draw_w draw_h;
         restoreState ].

(** *** The payment, as [generate_invoice_pdf] reads it *)

Record ProductSnapshot : Type := mk_item {
  product_name : string;
  product_price : Q;
  quantity : Z
}.

Record Payment : Type := mk_payment {
  id : Z;
  created_at : datetime;
  currency : string;
  rate : Q;
  amount : Q;
  products_snapshot : list ProductSnapshot;
  popup_city_name : string   (* payment.application.popup_city.name *)
}.

(** *** The flowables of the document *)

Inductive flowable : Type :=
| FCroppedImage (img : cropped_image)
| Spacer (width height : Q)
| Paragraph (text style : string)
| HeaderTable (left right : list (string * string)) (colWidths : list Q)
| Table (data : list (list string)) (colWidths : list Q)
        (repeatRows : nat).

(** The header banner is the only [CroppedImageFitWidth] of the document. *)
Definition is_banner (f : flowable) : bool :=
  match f with
  | FCroppedImage _ => true
  | _ => false
  end.

(** *** Table header (conditional columns) *)

Definition show_discount (discount : option Q) : bool :=
  match discount with Some _ => true | None => false end.

Definition show_rate (payment : Payment) : bool :=
  if Qlt_le_dec 1 (rate payment) then true else false.

Definition headers (payment : Payment) (discount : option Q) : list string :=
  let headers := ["Quantity"; "Description"; "Unit Price"] in
  let headers :=
    if show_discount discount then (headers ++ ["Discount"])%list
  else headers in
  let headers :=
    if show_rate payment then (headers ++ ["Rate"])%list else headers in
  (headers ++ ["Amount"])%list.

(** *** Table rows *)

(** [discount or 0]. *)
Definition discount_or_0 (discount : option Q) : Q :=
  match discount with
  | Some d => if Qeq_bool d 0 then 0 else d
  | None => 0
  end.

(** The cell [f'{discount:.0f}%'], appended when [show_discount]. *)
Definition discount_cell (discount : option Q) : list string :=
  match discount with
  | Some d => [format_fixed false 0 d ++ "%"]
  | None => []
  end.

Definition build_row (payment : Payment) (discount : option Q)
    (item : ProductSnapshot) : result (list string) :=
  let unit_price_usd := product_price item in
  let qty := quantity item in
  if show_rate payment then
    unit_in_currency <- py_div unit_price_usd (rate payment) ;;
    let total_unit := unit_in_currency * inject_Z qty in
    let total_after_discount :=
      total_unit * (1 - discount_or_0 discount / 100) in
    let description :=
      product_name item ++ " - " ++ popup_city_name payment in
    let row :=
      [Str.of_int qty; description; format_money unit_price_usd ++ " USD"] in
    let row := app row (discount_cell discount) in
    let row :=
      app row ["1 " ++ currency payment ++ " = " ++
               format_money (rate payment) ++ " USD"] in
    Ok (app row [format_currency total_after_discount (currency payment)
                 ++ " " ++ currency payment])
  else
    let total_unit := unit_price_usd * inject_Z qty in
    let total_after_discount :=
      total_unit * (1 - discount_or_0 discount / 100) in
    let row :=
      [Str.of_int qty; product_name item;
       format_money unit_price_usd ++ " USD"] in
    let row := app row (discount_cell discount) in
    Ok (app row [format_currency total_after_discount (currency payment)
                 ++ " " ++ currency payment]).

(** The body rows appended to [table_data], in order. *)
Definition table_rows (payment : Payment) (discount : option Q)
  : result (list (list string)) :=
  mapM (build_row payment discount) (products_snapshot payment).

Definition table_data (payment : Payment) (discount : option Q)
  : result (list (list string)) :=
  rows <- table_rows payment discount ;;
  Ok (headers payment discount :: rows).

(** *** Column widths *)

(** Index mapping given headers: [Qty, Desc, Unit, (Disc?), (Rate?), Amount]. *)
Definition qty_idx : nat := 0.
Definition unit_idx : nat := 2.

Record col_indices : Type := mk_indices {
  discount_idx : option nat;
  rate_idx : option nat;
  amount_idx : nat
}.

Definition column_indices (show_discount show_rate : bool) : col_indices :=
  let idx := 3%nat in
  let discount_idx := if show_discount then Some idx else None in
  let idx := if show_discount then (idx + 1)%nat else idx in
  let rate_idx := if show_rate then Some idx else None in
  let idx := if show_rate then (idx + 1)%nat else idx in
  mk_indices discount_idx rate_idx idx.

(** Minimum widths (mm) to keep columns readable. *)
Definition qty_min : Q := 12 * mm.
Definition unit_min : Q := 24 * mm.
Definition amount_min : Q := 28 * mm.
Definition discount_min : Q := 16 * mm.
Definition rate_min : Q := 36 * mm.
Definition desc_min : Q := 30 * mm.

(** Paddings (left+right = 8) and tiny buffer. *)
Definition pad : Q := 8 + 2.

Record maxima : Type := mk_maxima {
  max_qty : Q;
  max_unit : Q;
  max_amount : Q;
  max_discount : Q;
  max_rate : Q
}.

Record widths : Type := mk_widths {
  qty_w : Q;
  desc_w : Q;
  unit_w : Q;
  discount_w : Q;
  rate_w : Q;
  amount_w : Q
}.

(** [headers[-1]]. *)
Definition py_last {A : Type} (l : list A) : result A :=
  match rev l with
  | a :: _ => Ok a
  | [] => Raise IndexError
  end.

Definition other_sum (w : widths) : Q :=
  qty_w w + unit_w w + amount_w w + discount_w w + rate_w w.

(** The content-fitted width of every column but the description, and the
    description as the remainder of [doc_width]. *)
Definition fit_columns (doc_width : Q) (ci : col_indices) (m : maxima)
  : widths :=
  let qty_w := py_max qty_min (max_qty m + pad) in
  let unit_w := py_max unit_min (max_unit m + pad) in
  let amount_w := py_max amount_min (max_amount m + pad) in
  let discount_w :=
    match discount_idx ci with
    | Some _ => py_max discount_min (max_discount m + pad)
    | None => 0
    end in
  let rate_w :=
    match rate_idx ci with
    | Some _ => py_max rate_min (max_rate m + pad)
    | None => 0
    end in
  let other_sum := qty_w + unit_w + amount_w + discount_w + rate_w in
  let desc_w := doc_width - other_sum in
  mk_widths qty_w desc_w unit_w discount_w rate_w amount_w.

(** The branch taken when the remainder is below [desc_min]: scale down the
    other columns proportionally to leave at least [desc_min]. *)
Definition shrink_columns (doc_width : Q) (ci : col_indices) (w : widths)
  : result widths :=
  if Qle_bool (other_sum w) 0 then
    let desc_w := doc_width in
    Ok (mk_widths (qty_w w) desc_w (unit_w w) (discount_w w) (rate_w w)
          (amount_w w))
  else
    let target_other := py_max (doc_width - desc_min) (doc_width * 0.6) in
    scale <- py_div target_other (other_sum w) ;;
    let qty_w := qty_w w * scale in
    let unit_w := unit_w w * scale in
    let amount_w := amount_w w * scale in
    let discount_w :=
      match discount_idx ci with
      | Some _ => discount_w w * scale
      | None => discount_w w
      end in
    let rate_w :=
      match rate_idx ci with
      | Some _ => rate_w w * scale
      | None => rate_w w
      end in
    let other_sum := qty_w + unit_w + amount_w + discount_w + rate_w in
    let desc_w := py_max desc_min (doc_width - other_sum) in
    Ok (mk_widths qty_w desc_w unit_w discount_w rate_w amount_w).

Definition allocate (doc_width : Q) (ci : col_indices) (m : maxima)
  : result widths :=
  let w := fit_columns doc_width ci m in
  if Qlt_le_dec (desc_w w) desc_min then shrink_columns doc_width ci w
  else Ok w.

Definition col_widths (ci : col_indices) (w : widths) : list Q :=
  let col_widths := [qty_w w; desc_w w; unit_w w] in
  let col_widths :=
    match discount_idx ci with
    | Some _ => app col_widths [discount_w w]
    | None => col_widths
    end in
  let col_widths :=
    match rate_idx ci with
    | Some _ => app col_widths [rate_w w]
    | None => col_widths
    end in
  app col_widths [amount_w w].

(** The role minimum of every column of the plan, in the order of
    [col_widths]. *)
Definition role_minimums (ci : col_indices) : list Q :=
  col_widths ci
    (mk_widths qty_min desc_min unit_min discount_min rate_min amount_min).

Fixpoint Qsum (l : list Q) : Q :=
  match l with
  | [] => 0
  | x :: l' => x + Qsum l'
  end.

Inductive image_source : Type :=
| FromBytes (image_bytes : string)
| FromPath (path : string).

Section Render.

(** [reportlab.pdfbase.pdfmetrics.stringWidth(text, fontName, fontSize)]. *)
Variable stringWidth : string -> string -> Q -> Q.
(** [urlparse(url).scheme], the body of [urlopen(url).read()] and the
    constructor [ImageReader(source)]; each may raise. *)
Variable urlparse_scheme : string -> result string.
Variable urlopen_read : string -> result string.
Variable ImageReader : image_source -> result image_reader.

(** Measure content widths using font size 10. *)
Definition measure (text : string) (bold : bool) : Q :=
  let font := if bold then "Helvetica-Bold" else "Helvetica" in
  stringWidth text font 10.

(** Start with header widths. *)
Definition header_maxima (ci : col_indices) (headers : list string)
  : result maxima :=
  hq <- py_index headers qty_idx ;;
  hu <- py_index headers unit_idx ;;
  ha <- py_last headers ;;
  max_discount <-
    match discount_idx ci with
    | Some i => h <- py_index headers i ;; Ok (measure h true)
    | None => Ok 0
    end ;;
  max_rate <-
    match rate_idx ci with
    | Some i => h <- py_index headers i ;; Ok (measure h true)
    | None => Ok 0
    end ;;
  Ok (mk_maxima (measure hq true) (measure hu true) (measure ha true)
        max_discount max_rate).

(** One iteration of the loop over the body rows. *)
Definition measure_row (ci : col_indices) (m : maxima) (row : list string)
  : result maxima :=
  cq <- py_index row qty_idx ;;
  let max_qty := py_max (max_qty m) (measure cq false) in
  cu <- py_index row unit_idx ;;
  let max_unit := py_max (max_unit m) (measure cu false) in
  ca <- py_index row (amount_idx ci) ;;
  let max_amount := py_max (max_amount m) (measure ca false) in
  max_discount <-
    match discount_idx ci with
    | Some i =>
        c <- py_index row i ;; Ok (py_max (max_discount m) (measure c false))
    | None => Ok (max_discount m)
    end ;;
  max_rate <-
    match rate_idx ci with
    | Some i =>
        c <- py_index row i ;; Ok (py_max (max_rate m) (measure c false))
    | None => Ok (max_rate m)
    end ;;
  Ok (mk_maxima max_qty max_unit max_amount max_discount max_rate).

Fixpoint measure_rows (ci : col_indices) (m : maxima)
    (rows : list (list string)) : result maxima :=
  match rows with
  | [] => Ok m
  | row :: rows' => m' <- measure_row ci m row ;; measure_rows ci m' rows'
  end.

(** The widest cell of every measured column: [table_data[0]] is the header
    row, [table_data[1:]] the body rows. *)
Definition table_maxima (ci : col_indices) (table_data : list (list string))
  : result maxima :=
  headers <- py_index table_data 0 ;;
  m0 <- header_maxima ci headers ;;
  measure_rows ci m0 (tl table_data).

Definition plan_widths (doc_width : Q) (ci : col_indices)
    (table_data : list (list string)) : result widths :=
  m <- table_maxima ci table_data ;;
  allocate doc_width ci m.

(** The column widths handed to [Table] for a payment, on a page of usable
    width [doc_width]. *)
Definition invoice_col_widths (doc_width : Q) (payment : Payment)
    (discount : option Q) : result (list Q) :=
  data <- table_data payment discount ;;
  let ci := column_indices (show_discount discount) (show_rate payment) in
  w <- plan_widths doc_width ci data ;;
  Ok (col_widths ci w).

(** *** The document *)

(** [doc.width]: A4 with 15 mm margins on both sides. *)
Definition doc_width : Q := fst A4 - 15 * mm - 15 * mm.

(** The body of the [try] block around the header image. *)
Definition load_header_image (header_image : string)
  : result (list flowable) :=
  scheme <- urlparse_scheme header_image ;;
  source <-
    (if String.eqb scheme "http" || String.eqb scheme "https"
     then image_bytes <- urlopen_read header_image ;; Ok (FromBytes image_bytes)
     else Ok (FromPath header_image)) ;;
  let box_h := 46 * mm in
  rd <- ImageReader source ;;
  Ok [FCroppedImage (mk_cropped rd doc_width box_h); Spacer 1 6].

(** [if header_image: try: ... except Exception: pass]. *)
Definition header_image_flow (header_image : option string)
  : list flowable :=
  match header_image with
  | None => []
  | Some h =>
      if String.eqb h EmptyString then []
      else
        match load_header_image h with
        | Ok banner => banner
        | Raise _ => []
        end
  end.

(** The flowables handed to [doc.build]. *)
Definition generate_invoice_pdf (payment : Payment) (client_name : string)
    (discount : option Q) (header_image : option string)
  : result (list flowable) :=
  let flow := header_image_flow header_image in
  let flow := app flow [Paragraph "Invoice" "Header"; Spacer 1 6] in
  let left :=
    [ ("Edge Institute Inc", "Body");
      ("Address: 1300 S 6th St, Austin, TX 78704", "Body");
      ("Email: syl@edgecity.live", "Body") ] in
  let right :=
    [ ("Date: " ++ format_date (created_at payment), "Right");
      ("Invoice #: " ++ Str.of_int (id payment), "Right");
      ("Bill to: " ++ client_name, "Right") ] in
  let header_tbl :=
    HeaderTable left right [doc_width / 2; doc_width / 2] in
  let flow := app flow [header_tbl; Spacer 1 12] in
  data <- table_data payment discount ;;
  let ci := column_indices (show_discount discount) (show_rate payment) in
  w <- plan_widths doc_width ci data ;;
  let tbl := Table data (col_widths ci w) 1 in
  let flow := app flow [tbl; Spacer 1 12] in
  total <-
    (if show_rate payment then py_div (amount payment) (rate payment)
     else Ok (amount payment)) ;;
  let total_par :=
    Paragraph ("<b>Total: " ++ format_currency total (currency payment) ++
               " " ++ currency payment ++ "</b>") "Bold" in
  Ok (app flow [total_par]).

End Render.

End Invoice.

(** ** [app/core/edge_wrapped.py]: [create_framed_image] *)

Module EdgeWrapped.

Local Open Scope Z_scope.

(** [a / b] on two [int]s: true division. *)
Definition int_div (a b : Z) : result Q :=
  if b =? 0 then Raise ZeroDivisionError
  else Ok (inject_Z a / inject_Z b)%Q.

(** [int(x)] on a float: truncation toward zero. *)
Definition py_int (x : Q) : Z := Z.quot (Qnum x) (Zpos (Qden x)).

(** Desired padding from top and sides. *)
Definition padding : Z := 150.

Record placement : Type := mk_placement {
  new_width : Z;
  new_height : Z;
  x : Z;
  y : Z
}.

(** The size of the resized center image and the position it is pasted at,
    from the sizes of the center image and of the background. *)
Definition paste_position (center_width center_height : Z)
    (canvas_width canvas_height : Z) : result placement :=
  let available_width := canvas_width - (padding * 2) in
  let available_height := canvas_height - (padding * 2) - 200 in
  sw <- int_div available_width center_width ;;
  sh <- int_div available_height center_height ;;
  let scale := py_min sw sh in
  let new_width := py_int (inject_Z center_width * scale)%Q in
  let new_height := py_int (inject_Z center_height * scale)%Q in
  let x := (canvas_width - new_width) / 2 in
  let actual_side_padding := x in
  let y := actual_side_padding - 5 in
  Ok (mk_placement new_width new_height x y).

(** [', '.join(popups).upper()]. *)
Definition subtitle_text (popups : list string) : string :=
  Str.upper (Str.join ", " popups).

Section Caption.

(** [draw.textbbox((0, 0), text, font=subtitle_font)], right minus left. *)
Variable text_width : string -> Q.

(** The loop over [words[1:]]. *)
Fixpoint wrap_loop (available_text_width : Z) (subtitle_lines : list string)
    (current_line : string) (words : list string) : list string :=
  match words with
  | [] => app subtitle_lines [current_line]
  | word :: words' =>
      let test_line := current_line ++ ", " ++ word in
      if Qle_bool (text_width test_line) (inject_Z available_text_width)
      then wrap_loop available_text_width subtitle_lines test_line words'
      else wrap_loop available_text_width
             (app subtitle_lines [current_line ++ ","]) word words'
  end.

(** The lines of the caption drawn under the photo. *)
Definition subtitle_lines (canvas_width : Z) (popups : list string)
  : result (list string) :=
  let subtitle_text := subtitle_text popups in
  let subtitle_width_test := text_width subtitle_text in
  let available_text_width := canvas_width - 40 in
  if Qle_bool subtitle_width_test (inject_Z available_text_width)
  then Ok [subtitle_text]
  else
    let words := Str.split_comma_space subtitle_text in
    current_line <- py_index words 0 ;;
    Ok (wrap_loop available_text_width [] current_line (tl words)).

End Caption.

End EdgeWrapped.

(** ** Vocabulary for statements about formatted text *)

Module Text.

Definition is_digit (c : ascii) : bool :=
  let n := nat_of_ascii c in (48 <=? n)%nat && (n <=? 57)%nat.

Fixpoint all_chars (P : ascii -> bool) (s : string) : bool :=
  match s with
  | EmptyString => true
  | String c s' => P c && all_chars P s'
  end.

Fixpoint map_chars (f : ascii -> ascii) (s : string) : string :=
  match s with
  | EmptyString => EmptyString
  | String c s' => String (f c) (map_chars f s')
  end.

(** The characters a fixed-point number is printed with. *)
Definition number_char (c : ascii) : bool :=
  is_digit c || Ascii.eqb c "-" || Ascii.eqb c "," || Ascii.eqb c ".".

(** Exchange of the thousands separator and the decimal point. *)
Definition swap_separators (c : ascii) : ascii :=
  if Ascii.eqb c "," then "."%char
  else if Ascii.eqb c "." then ","%char
  else c.

Definition not_comma (c : ascii) : bool := negb (Ascii.eqb c ",").

Definition not_dot (c : ascii) : bool := negb (Ascii.eqb c ".").

(** [x] is where a text of width [width] is centered between [lo] and
    [hi]: the free space on its right exceeds the free space on its left by
    at most one. *)
Definition centered (lo hi x width : Z) : Prop :=
  (0 <= (hi - (x + width)) - (x - lo) <= 1)%Z.

End Text.

(** ** [app/core/edge_wrapped.py]: overlay, caption block and pipeline *)

Module Wrapped.

Local Open Scope Z_scope.

(** *** Strings and sets *)

(** [c.lower()] on the ASCII range. *)
Definition lower_char (c : ascii) : ascii :=
  let n := nat_of_ascii c in
  if (65 <=? n)%nat && (n <=? 90)%nat then ascii_of_nat (n + 32) else c.

Fixpoint lower (s : string) : string :=
  match s with
  | EmptyString => EmptyString
  | String c s' => String (lower_char c) (lower s')
  end.

(** [needle in hay]. *)
Fixpoint contains (needle hay : string) : bool :=
  match hay with
  | EmptyString => String.prefix needle EmptyString
  | String _ hay' => String.prefix needle hay || contains needle hay'
  end.

(** [s.split(sep)] for a one-character separator. *)
Fixpoint split_char (sep : ascii) (s : string) : list string :=
  match s with
  | EmptyString => [EmptyString]
  | String c s' =>
      if Ascii.eqb c sep then EmptyString :: split_char sep s'
      else Str.cons_head c (split_char sep s')
  end.

(** [s.replace(old, new)] for a non-empty [old]: occurrences are replaced
    from left to right and do not overlap; [skip] counts the characters of
    the occurrence being replaced that are still to be dropped. *)
Fixpoint replace_from (old new : string) (skip : nat) (s : string)
  : string :=
  match s with
  | EmptyString => EmptyString
  | String c s' =>
      match skip with
      | S k => replace_from old new k s'
      | O =>
          if String.prefix old s
          then new ++ replace_from old new (String.length old - 1) s'
          else String c (replace_from old new 0 s')
      end
  end.

Definition replace (old new s : string) : string :=
  replace_from old new 0 s.

(** A [set] of strings is a duplicate-free list; only membership, size and
    equality of sets are used, so the order kept here is not observable. *)
Definition mem (x : string) (s : list string) : bool :=
  existsb (String.eqb x) s.

(** [s.add(x)]. *)
Definition set_add (x : string) (s : list string) : list string :=
  if mem x s then s else app s [x].

(** [set(l)]. *)
Definition set_of_list (l : list string) : list string :=
  fold_left (fun s x => set_add x s) l [].

(** [a == b] on sets. *)
Definition set_eqb (a b : list string) : bool :=
  forallb (fun x => mem x b) a && forallb (fun x => mem x a) b.

(** *** [generate_edge_wrapped]: locations and codes *)

Definition popups_map : list (string * string) :=
  [ ("Austin", "AU"); ("South Africa", "SA"); ("Patagonia", "AR");
    ("Lanna", "TH"); ("Esmeralda", "CA"); ("Bhutan", "BH") ].

(** The inner loop: the first entry whose name occurs in the popup, letter
    case ignored. *)
Fixpoint first_match (popup : string) (map : list (string * string))
  : option (string * string) :=
  match map with
  | [] => None
  | (name, code) :: map' =>
      if contains (lower name) (lower popup) then Some (name, code)
      else first_match popup map'
  end.

(** The outer loop over [popups], from the sets built so far. *)
Fixpoint collect (popups : list string) (locations codes : list string)
  : list string * list string :=
  match popups with
  | [] => (locations, codes)
  | popup :: popups' =>
      match first_match popup popups_map with
      | Some (name, code) =>
          collect popups' (set_add name locations) (set_add code codes)
      | None => collect popups' locations codes
      end
  end.

(** The invariant of the loop: the two sets are the names and the codes of
    one duplicate-free list of entries of [popups_map]. *)
Definition paired (locations codes : list string) : Prop :=
  exists entries,
    incl entries popups_map /\
    locations = map fst entries /\ codes = map snd entries /\
    NoDup locations /\ NoDup codes.

(** *** [_get_ai_image] *)

Record dir_entry : Type := mk_entry {
  entry_name : string;
  entry_path : string;
  entry_is_file : bool
}.

Definition ValueError : exn := OtherError "ValueError".

(** Whether the codes in the name of an entry are exactly [codes]. *)
Definition entry_matches (codes : list string) (entry : dir_entry)
  : result bool :=
  filename <- py_index (split_char "." (entry_name entry)) 0 ;;
  Ok (set_eqb codes (set_of_list (split_char "-" filename))).

(** The loop over the entries of the directory. *)
Fixpoint scan_entries (codes : list string) (entries : list dir_entry)
  : result string :=
  match entries with
  | [] => Raise ValueError
  | entry :: entries' =>
      if entry_is_file entry then
        found <- entry_matches codes entry ;;
        if found then Ok (entry_path entry)
        else scan_entries codes entries'
      else scan_entries codes entries'
  end.

(** *** Drawing with Pillow *)

Definition bbox_width (bbox : Z * Z * Z * Z) : Z :=
  let '(x0, _, x1, _) := bbox in x1 - x0.

Definition bbox_height (bbox : Z * Z * Z * Z) : Z :=
  let '(_, y0, _, y1) := bbox in y1 - y0.

Definition line_spacing : Z := 10.
Definition text_spacing : Z := 20.

(** The events of the file system during a call, newest first: an image of
    the given size saved at a path, or a path removed. *)
Inductive fs_event : Type :=
| saved (path : string) (size : Z * Z)
| removed (path : string).

Inductive file_state : Type :=
| Written (size : Z * Z)
| Deleted
| Untouched.

Fixpoint file_state_of (log : list fs_event) (path : string) : file_state :=
  match log with
  | [] => Untouched
  | saved p size :: log' =>
      if String.eqb p path then Written size else file_state_of log' path
  | removed p :: log' =>
      if String.eqb p path then Deleted else file_state_of log' path
  end.

Definition FileNotFoundError : exn := OtherError "FileNotFoundError".

Section Pillow.

(** [ImageFont.truetype(path, size)], [ImageFont.load_default()],
    [isinstance(e, IOError)], [draw.textbbox((0, 0), text, font=font)] as
    (left, top, right, bottom), and the size of the logo rendered by
    [svg2png] at a given height and opened as an image. *)
Variable font : Type.
Variable truetype : string -> Z -> result font.
Variable load_default : font.
Variable is_IOError : exn -> bool.
Variable textbbox : font -> string -> Z * Z * Z * Z.
(** [image.resize((width, height))]: Pillow raises on a size it refuses. *)
Variable resize : Z -> Z -> result unit.
Variable svg_logo : Z -> result (Z * Z).
(** [Image.open(path).size] for a file the call has not written, and
    [os.scandir(directory)]. Saving, pasting and drawing are taken to
    succeed. *)
Variable asset : string -> result (Z * Z).
Variable scandir : string -> result (list dir_entry).

Inductive drawing : Type :=
| Text (x y : Z) (text : string) (f : font)
| Paste (x y : Z) (size : Z * Z).

(** The vertical position of a drawing, and the text drawn. *)
Definition drawing_y (d : drawing) : Z :=
  match d with
  | Text _ y _ _ => y
  | Paste _ y _ => y
  end.

Definition drawing_text (d : drawing) : string :=
  match d with
  | Text _ _ text _ => text
  | Paste _ _ _ => EmptyString
  end.

(** [try: regular, bold = truetype(...), truetype(...)
     except IOError: regular = bold = load_default()]. *)
Definition load_fonts (regular_size bold_size : Z) : result (font * font) :=
  match
    (regular <- truetype "static/fonts/science-gothic.ttf" regular_size ;;
     bold <- truetype "static/fonts/science-gothic-bold.ttf" bold_size ;;
     Ok (regular, bold))
  with
  | Ok fonts => Ok fonts
  | Raise e =>
      if is_IOError e then Ok (load_default, load_default) else Raise e
  end.

(** **** [add_text_to_image] *)

Definition scale_factor (img_width : Z) : Q :=
  (inject_Z img_width / inject_Z 1024)%Q.

(** [int(base * scale_factor)]. *)
Definition scaled (base : Z) (img_width : Z) : Z :=
  EdgeWrapped.py_int (inject_Z base * scale_factor img_width)%Q.

(** The six texts: a label and a number in each third of the image. *)
Definition metric_texts (font_label font_number : font) (img_width : Z)
    (villages_count days_count events_count : Z) : list drawing :=
  let line_spacing := scaled 5 img_width in
  let start_y := scaled 20 img_width in
  let column_width := img_width / 3 in
  let bbox_label := textbbox font_label "Villages attended" in
  let label_y := start_y in
  let number_y := start_y + bbox_height bbox_label + line_spacing in
  let label1 := "Villages attended" in
  let number1 := Str.of_int villages_count in
  let label1_width := bbox_width (textbbox font_label label1) in
  let text_x_left := (column_width - label1_width) / 2 in
  let number1_width := bbox_width (textbbox font_number number1) in
  let number_x_left := (column_width - number1_width) / 2 in
  let label2 := "Days at Edge" in
  let number2 := Str.of_int days_count in
  let label2_width := bbox_width (textbbox font_label label2) in
  let text_x_center := column_width + (column_width - label2_width) / 2 in
  let number2_width := bbox_width (textbbox font_number number2) in
  let number_x_center :=
    column_width + (column_width - number2_width) / 2 in
  let label3 := "Events RSVP'd" in
  let number3 := Str.of_int events_count in
  let label3_width := bbox_width (textbbox font_label label3) in
  let text_x_right :=
    (2 * column_width) + (column_width - label3_width) / 2 in
  let number3_width := bbox_width (textbbox font_number number3) in
  let number_x_right :=
    (2 * column_width) + (column_width - number3_width) / 2 in
  [ Text text_x_left label_y label1 font_label;
    Text number_x_left number_y number1 font_number;
    Text text_x_center label_y label2 font_label;
    Text number_x_center number_y number2 font_number;
    Text text_x_right label_y label3 font_label;
    Text number_x_right number_y number3 font_number ].

(** The logo in the bottom right corner; any exception leaves it out. *)
Definition logo_drawings (img_width img_height : Z) : list drawing :=
  match
    (let logo_height := scaled 80 img_width in
     logo <- svg_logo logo_height ;;
     let logo_padding := scaled 20 img_width in
     let logo_x := img_width - fst logo - logo_padding in
     let logo_y := img_height - snd logo - logo_padding in
     Ok [Paste logo_x logo_y logo])
  with
  | Ok drawings => drawings
  | Raise _ => []
  end.

(** What is drawn on an image of the given size. *)
Definition add_text_to_image (img_width img_height : Z)
    (villages_count days_count events_count : Z) : result (list drawing) :=
  let font_size_label := scaled 32 img_width in
  let font_size_number := scaled 48 img_width in
  fonts <- load_fonts font_size_label font_size_number ;;
  let texts :=
    metric_texts (fst fonts) (snd fonts) img_width
      villages_count days_count events_count in
  Ok (app texts (logo_drawings img_width img_height)).

(** **** [create_framed_image]: the text under the photo *)

Definition title_text : string := "YOUR EDGE WRAPPED, COMPROMISED OF:".

Definition total_text_height (title_height subtitle_line_height : Z)
    (subtitle_lines : list string) : Z :=
  title_height + text_spacing
  + (subtitle_line_height * Z.of_nat (List.length subtitle_lines))
  + (line_spacing * (Z.of_nat (List.length subtitle_lines) - 1)).

(** The loop drawing the subtitle lines from [current_y] downwards. *)
Fixpoint draw_lines (subtitle_font : font) (canvas_width : Z)
    (subtitle_line_height : Z) (current_y : Z) (lines : list string)
  : list drawing :=
  match lines with
  | [] => []
  | line :: lines' =>
      let line_width := bbox_width (textbbox subtitle_font line) in
      let line_x := (canvas_width - line_width) / 2 in
      Text line_x current_y line subtitle_font
      :: draw_lines subtitle_font canvas_width subtitle_line_height
           (current_y + subtitle_line_height + line_spacing) lines'
  end.

Record framed : Type := mk_framed {
  photo : EdgeWrapped.placement;
  drawings : list drawing;
  output_path_png : string
}.

(** What is composed on a background of the given size for a center image
    of the given size. *)
Definition create_framed_image (center_width center_height : Z)
    (canvas_width canvas_height : Z) (popups : list string)
    (output_path : string) : result framed :=
  p <- EdgeWrapped.paste_position center_width center_height
         canvas_width canvas_height ;;
  center_img_resized <-
    resize (EdgeWrapped.new_width p) (EdgeWrapped.new_height p) ;;
  let y := EdgeWrapped.y p in
  let new_height := EdgeWrapped.new_height p in
  fonts <- load_fonts 60 70 ;;
  let title_font := fst fonts in
  let subtitle_font := snd fonts in
  subtitle_lines <-
    EdgeWrapped.subtitle_lines
      (fun text => inject_Z (bbox_width (textbbox subtitle_font text)))
      canvas_width popups ;;
  let bbox_title := textbbox title_font title_text in
  let title_height := bbox_height bbox_title in
  first_line <- py_index subtitle_lines 0 ;;
  let subtitle_line_height :=
    bbox_height (textbbox subtitle_font first_line) in
  let total_text_height :=
    total_text_height title_height subtitle_line_height subtitle_lines in
  let space_below_image := canvas_height - (y + new_height) in
  let text_start_y :=
    y + new_height + (space_below_image - total_text_height) / 2 in
  let title_width := bbox_width bbox_title in
  let title_x := (canvas_width - title_width) / 2 in
  let title_y := text_start_y in
  let current_y := title_y + title_height + text_spacing in
  let output_path_png :=
    replace ".jpg" ".png" (replace ".jpeg" ".png" output_path) in
  Ok (mk_framed p
        (Text title_x title_y title_text title_font
         :: draw_lines subtitle_font canvas_width subtitle_line_height
              current_y subtitle_lines)
        output_path_png).

(** **** The pipeline, with its files *)

(** [Image.open(path).size] after the events of [log]. *)
Definition open_image (log : list fs_event) (path : string)
  : result (Z * Z) :=
  match file_state_of log path with
  | Written size => Ok size
  | Deleted => Raise FileNotFoundError
  | Untouched => asset path
  end.

(** [os.remove(path)]. *)
Definition os_remove (log : list fs_event) (path : string)
  : result unit * list fs_event :=
  match open_image log path with
  | Ok _ => (Ok tt, removed path :: log)
  | Raise _ => (Raise FileNotFoundError, log)
  end.

(** [add_text_to_image(image_path, ..., output_path)]: the image saved has
    the size of the image opened. *)
Definition add_text_to_image_io (log : list fs_event) (image_path : string)
    (villages_count days_count events_count : Z) (output_path : string)
  : result unit * list fs_event :=
  match open_image log image_path with
  | Raise e => (Raise e, log)
  | Ok (img_width, img_height) =>
      match add_text_to_image img_width img_height
              villages_count days_count events_count with
      | Raise e => (Raise e, log)
      | Ok _ => (Ok tt, saved output_path (img_width, img_height) :: log)
      end
  end.

(** [create_framed_image(center_image_path, background_path, popups,
    output_path)]: the image saved is the background, drawn over. *)
Definition create_framed_image_io (log : list fs_event)
    (center_image_path background_path : string) (popups : list string)
    (output_path : string) : result unit * list fs_event :=
  match open_image log center_image_path with
  | Raise e => (Raise e, log)
  | Ok (center_width, center_height) =>
      match open_image log background_path with
      | Raise e => (Raise e, log)
      | Ok (canvas_width, canvas_height) =>
          match create_framed_image center_width center_height
                  canvas_width canvas_height popups output_path with
          | Raise e => (Raise e, log)
          | Ok f =>
              (Ok tt,
               saved (output_path_png f) (canvas_width, canvas_height)
               :: log)
          end
      end
  end.

(** [if not path: path = default]. *)
Definition or_default (path : option string) (default : string) : string :=
  match path with
  | Some p => if String.eqb p EmptyString then default else p
  | None => default
  end.

(** [_generate_edge_wrapped], with [image_id] the value of
    [str(uuid.uuid4())]. *)
Definition _generate_edge_wrapped (log : list fs_event) (image_id : string)
    (ai_image_path : string) (villages_count days_count events_count : Z)
    (popups : list string) (background_frame_path : string)
    (intermediate_output final_output : option string)
  : result (string * string) * list fs_event :=
  let intermediate_output :=
    or_default intermediate_output
      ("/tmp/" ++ image_id ++ "_intermediate.png") in
  let final_output :=
    or_default final_output ("/tmp/" ++ image_id ++ "_final.png") in
  match add_text_to_image_io log ai_image_path villages_count days_count
          events_count intermediate_output with
  | (Raise e, log1) => (Raise e, log1)
  | (Ok _, log1) =>
      match create_framed_image_io log1 intermediate_output
              background_frame_path popups final_output with
      | (Raise e, log2) => (Raise e, log2)
      | (Ok _, log2) => (Ok (intermediate_output, final_output), log2)
      end
  end.

(** [_get_ai_image]. *)
Definition _get_ai_image (codes : list string) : result string :=
  entries <- scandir "static/images" ;;
  scan_entries codes entries.

(** [generate_edge_wrapped], with [image_id] the value of
    [str(uuid.uuid4())], from the file system events [log]. *)
Definition generate_edge_wrapped (log : list fs_event) (image_id : string)
    (popups : list string) (days_count events_count : Z)
  : result string * list fs_event :=
  let (locations, codes) := collect popups [] [] in
  let villages_count := Z.of_nat (List.length locations) in
  match _get_ai_image codes with
  | Raise e => (Raise e, log)
  | Ok ai_image_path =>
      match _generate_edge_wrapped log image_id ai_image_path
              villages_count days_count events_count popups
              "static/images/frame.png" None None with
      | (Raise e, log1) => (Raise e, log1)
      | (Ok (intermediate_output, final_output), log1) =>
          match os_remove log1 intermediate_output with
          | (Raise e, log2) => (Raise e, log2)
          | (Ok _, log2) => (Ok final_output, log2)
          end
      end
  end.

End Pillow.

End Wrapped.

(** ** Inputs used by the examples below *)

Module Examples.

Import Invoice.

Local Open Scope Q_scope.

(** A fixed-pitch text measurer: every glyph as wide as a Helvetica digit
    (0.556 em). *)
Definition fixed_pitch (text font : string) (size : Q) : Q :=
  size * 0.556 * inject_Z (Z.of_nat (String.length text)).

Definition no_scheme (url : string) : result string := Ok EmptyString.
Definition no_network (url : string) : result string :=
  Raise (OtherError "URLError").
Definition unreadable (source : image_source) : result image_reader :=
  Raise (OtherError "cannot identify image file").

(** The payment of the end-to-end example: EUR at rate 0.92, one "Pass" at
    100.00 USD, quantity 2. *)
Definition eur_payment : Payment :=
  mk_payment 1 (mk_datetime 2025 1 31) "EUR" 0.92 200
    [mk_item "Pass" 100 2] "Edge Austin".

(** A payment whose quantity, a 100-digit power of two, makes a cell wider
    than the page; every amount involved is exact in binary floating
    point. *)
Definition bulk_payment : Payment :=
  mk_payment 2 (mk_datetime 2025 1 31) "USD" 1 200
    [mk_item "Pass" 1 (2 ^ 332)] "Edge Austin".

(** A caption measurer: 40 pixels per character. *)
Definition forty_px (text : string) : Q :=
  inject_Z (40 * Z.of_nat (String.length text)).

(** Four locations, 55 characters once joined and uppercased. *)
Definition four_popups : list string :=
  ["Edge Austin"; "Edge Patagonia"; "Edge Esmeralda"; "Edge Lanna"].

Definition readable (source : image_source) : result image_reader :=
  Ok (mk_reader (1200, 400)%Z).

(** Measured maxima with a 300 pt amount and a 200 pt rate cell. *)
Definition wide_maxima : maxima := mk_maxima 40 60 300 0 200.

(** A Pillow in which a font is its size in pixels, every glyph is half as
    wide as it is high, and the logo is three times as wide as it is
    high. *)
Definition ttf (path : string) (size : Z) : result Z := Ok size.
Definition no_bold_font (path : string) (size : Z) : result Z :=
  if String.eqb path "static/fonts/science-gothic-bold.ttf"
  then Raise (OtherError "IOError") else Ok size.
Definition default_font : Z := 11%Z.
Definition io_error (e : exn) : bool :=
  match e with
  | OtherError name => String.eqb name "IOError"
  | _ => false
  end.
Definition half_wide (f : Z) (text : string) : Z * Z * Z * Z :=
  (0, 0, (f / 2) * Z.of_nat (String.length text), f)%Z.
Definition positive_size (width height : Z) : result unit :=
  if ((0 <? width) && (0 <? height))%Z then Ok tt
  else Raise (OtherError "ValueError").
Definition logo_3_to_1 (height : Z) : result (Z * Z) :=
  Ok (3 * height, height)%Z.
Definition no_logo (height : Z) : result (Z * Z) :=
  Raise (OtherError "URLError").

(** A catalogue with one photo for Austin and Patagonia, and the frame. *)
Definition catalogue (directory : string)
  : result (list Wrapped.dir_entry) :=
  Ok [ Wrapped.mk_entry "frame.png" "static/images/frame.png" true;
       Wrapped.mk_entry "AR-AU.png" "static/images/AR-AU.png" true ].
Definition assets (path : string) : result (Z * Z) :=
  if String.eqb path "static/images/frame.png" then Ok (2300, 2500)%Z
  else if String.eqb path "static/images/AR-AU.png" then Ok (1024, 1024)%Z
  else Raise Wrapped.FileNotFoundError.
Definition assets_without_frame (path : string) : result (Z * Z) :=
  if String.eqb path "static/images/AR-AU.png" then Ok (1024, 1024)%Z
  else Raise Wrapped.FileNotFoundError.

End Examples.

(** * Properties *)

Import Invoice.

Local Open Scope Q_scope.

(** ** The result monad *)

Lemma py_div_ok (a b : Q) : ~ b == 0 -> py_div a b = Ok (a / b).
Proof.
  intros Hb. unfold py_div.
  destruct (Qeq_bool b 0) eqn:E; [|reflexivity].
  apply Qeq_bool_eq in E. contradiction.
Qed.

Lemma mapM_ok {A B : Type} (f : A -> result B) (P : B -> Prop) (l : list A) :
  (forall a, In a l -> exists b, f a = Ok b /\ P b) ->
  exists bs, mapM f l = Ok bs /\ Forall P bs /\ List.length bs = List.length l.
Proof.
  induction l as [|a l IH]; intros H; simpl.
  - exists []. repeat split. constructor.
  - destruct (H a (or_introl eq_refl)) as [b [Hb Pb]].
    destruct IH as [bs [Hbs [HP Hlen]]].
    { intros a' Ha'. apply H. now right. }
    rewrite Hb, Hbs. simpl. exists (b :: bs). repeat split.
    + now constructor.
    + simpl. now rewrite Hlen.
Qed.

(** ** Table header and rows *)

Lemma show_rate_true (payment : Payment) :
  show_rate payment = true <-> 1 < rate payment.
Proof.
  unfold show_rate. destruct (Qlt_le_dec 1 (rate payment)) as [H|H].
  - tauto.
  - split; [discriminate|]. intros H'. exfalso. lra.
Qed.

Lemma show_rate_nonzero (payment : Payment) :
  show_rate payment = true -> ~ rate payment == 0.
Proof. intros H%show_rate_true. lra. Qed.

Lemma headers_length (payment : Payment) (discount : option Q) :
  List.length (headers payment discount) =
  S (amount_idx (column_indices (show_discount discount) (show_rate payment))).
Proof.
  unfold headers.
  destruct (show_discount discount), (show_rate payment); reflexivity.
Qed.

Lemma discount_cell_length (discount : option Q) :
  List.length (discount_cell discount) =
  if show_discount discount then 1%nat else 0%nat.
Proof. destruct discount; reflexivity. Qed.

Lemma build_row_ok (payment : Payment) (discount : option Q)
    (item : ProductSnapshot) :
  exists row, build_row payment discount item = Ok row /\
              List.length row = List.length (headers payment discount).
Proof.
  rewrite headers_length. unfold build_row.
  destruct (show_rate payment) eqn:Hr.
  - rewrite (py_div_ok _ _ (show_rate_nonzero _ Hr)). unfold bind.
    eexists. split; [reflexivity|].
    rewrite !length_app, discount_cell_length.
    destruct (show_discount discount); reflexivity.
  - eexists. split; [reflexivity|].
    rewrite !length_app, discount_cell_length.
    destruct (show_discount discount); reflexivity.
Qed.

Lemma table_rows_ok (payment : Payment) (discount : option Q) :
  exists rows,
    table_rows payment discount = Ok rows /\
    Forall (fun row => List.length row = List.length (headers payment discount)) rows /\
    List.length rows = List.length (products_snapshot payment).
Proof.
  unfold table_rows. apply mapM_ok. intros item _. apply build_row_ok.
Qed.

(** C4. The header row has a "Discount" column exactly when a discount is
    supplied (0 included) and a "Rate" column exactly when [payment.rate > 1];
    it is Quantity, Description, Unit Price, then Discount and Rate when
    present, in that order, then Amount: 4 headers with neither, one more for
    each optional column, 6 with both. *)
Theorem headers_conditional_columns (payment : Payment) (discount : option Q) :
  (In "Discount" (headers payment discount) <-> discount <> None) /\
  (In "Rate" (headers payment discount) <-> 1 < rate payment) /\
  headers payment discount =
    match discount, Qlt_le_dec 1 (rate payment) with
    | None, right _ =>
        ["Quantity"; "Description"; "Unit Price"; "Amount"]
    | Some _, right _ =>
        ["Quantity"; "Description"; "Unit Price"; "Discount"; "Amount"]
    | None, left _ =>
        ["Quantity"; "Description"; "Unit Price"; "Rate"; "Amount"]
    | Some _, left _ =>
        ["Quantity"; "Description"; "Unit Price"; "Discount"; "Rate";
         "Amount"]
    end.
Proof.
  unfold headers, show_rate, show_discount.
  destruct discount as [d|], (Qlt_le_dec 1 (rate payment)) as [H|H]; simpl;
    (split; [|split; [|reflexivity]]); split; intros G;
    try discriminate; try congruence; try assumption; try tauto;
    try (exfalso; lra);
    repeat (destruct G as [G|G]; try discriminate G); try contradiction.
Qed.

(** C10. Every body row appended to the table has as many cells as the
    header row, and the row loop builds one row for every line item. *)
Theorem rows_match_headers (payment : Payment) (discount : option Q) :
  exists rows,
    table_rows payment discount = Ok rows /\
    List.length rows = List.length (products_snapshot payment) /\
    Forall (fun row => List.length row = List.length (headers payment discount)) rows.
Proof.
  destruct (table_rows_ok payment discount) as [rows [H [HF HL]]].
  exists rows. auto.
Qed.

(** C1, as the specification states it, fails: for EUR at rate 0.92 the test
    [payment.rate > 1] is false, so the row has no Rate cell and the amount
    is not divided by the rate. *)
Lemma eur_row_is_not_rate_converted :
  table_rows Examples.eur_payment None <>
  Ok [["2"; "Pass"; "100,00 USD"; "1 EUR = 0,92 USD"; "217,39 EUR"]].
Proof. vm_compute. discriminate. Qed.

(** C1, amended. For a payment in EUR at rate 0.92 with the single line item
    "Pass", 100.00 USD, quantity 2, and no discount, the only body row is
    ["2"; "Pass"; "100,00 USD"; "200,00 EUR"], whatever the other fields of
    the payment are. *)
Theorem eur_row_without_rate (id : Z) (created_at : datetime) (amount : Q)
    (popup_name : string) :
  table_rows
    (mk_payment id created_at "EUR" 0.92 amount [mk_item "Pass" 100 2]
       popup_name)
    None
  = Ok [["2"; "Pass"; "100,00 USD"; "200,00 EUR"]].
Proof. reflexivity. Qed.

(** ** [CroppedImageFitWidth.draw] *)

(** C6. For a native image of nonzero width [iw] and height [ih] and a box
    of width [W] and height [H], the image is drawn at horizontal offset 0,
    width exactly [W] and height [h = ih * (W / iw)], which is [W / r] for
    the aspect ratio [r = iw / ih], at the vertical offset
    [dy = (H - h) / 2] that leaves the same margin below and above. *)
Theorem draw_fits_width (iw ih : Z) (W H : Q) :
  iw <> 0%Z ->
  exists dy h,
    draw (mk_cropped (mk_reader (iw, ih)) W H)
    = Ok [saveState; clipRect 0 0 W H; drawImage 0 dy W h; restoreState] /\
    h == inject_Z ih * (W / inject_Z iw) /\
    (ih = 0%Z \/ h == W / (inject_Z iw / inject_Z ih)) /\
    dy == (H - W * inject_Z ih / inject_Z iw) / 2 /\
    dy + h + dy == H.
Proof.
  intros Hiw.
  assert (Hq : ~ inject_Z iw == 0).
  { intros E. apply Hiw. unfold Qeq in E. simpl in E. lia. }
  exists ((H - inject_Z ih * (W / inject_Z iw)) / 2),
         (inject_Z ih * (W / inject_Z iw)).
  split; [|split; [|split; [|split]]].
  - unfold draw. simpl.
    destruct (Z.eqb_spec iw 0) as [E|_]; [contradiction|].
    rewrite (py_div_ok _ _ Hq). reflexivity.
  - reflexivity.
  - destruct (Z.eq_dec ih 0) as [E|E]; [now left|right].
    assert (~ inject_Z ih == 0).
    { intros E'. apply E. unfold Qeq in E'. simpl in E'. lia. }
    field. split; assumption.
  - field. assumption.
  - field. assumption.
Qed.

Lemma draw_fits_width_witness :
  exists dy h,
    draw (mk_cropped (mk_reader (1200, 400)%Z) 300 50)
    = Ok [saveState; clipRect 0 0 300 50; drawImage 0 dy 300 h;
          restoreState] /\
    h == inject_Z 400 * (300 / inject_Z 1200) /\
    (400%Z = 0%Z \/ h == 300 / (inject_Z 1200 / inject_Z 400)) /\
    dy == (50 - 300 * inject_Z 400 / inject_Z 1200) / 2 /\
    dy + h + dy == 50.
Proof. apply (draw_fits_width 1200 400 300 50). discriminate. Defined.

(** C9. [draw] never raises: with a native width of 0 it returns before the
    division and sends nothing to the canvas, and with any other width the
    divisor is not zero. *)
Theorem draw_total :
  (forall (ih : Z) (W H : Q),
     draw (mk_cropped (mk_reader (0%Z, ih)) W H) = Ok []) /\
  (forall self : cropped_image, exists ops, draw self = Ok ops).
Proof.
  split; [reflexivity|].
  intros [[[iw ih]] W H]. unfold draw. simpl.
  destruct (Z.eqb_spec iw 0) as [E|E]; [eexists; reflexivity|].
  rewrite py_div_ok; [eexists; reflexivity|].
  intros E'. apply E. unfold Qeq in E'. simpl in E'. lia.
Qed.

(** ** Column widths *)

Lemma mm_pos : 0 < mm.
Proof. reflexivity. Qed.

Lemma py_max_l (a b : Q) : a <= py_max a b.
Proof. unfold py_max. destruct (Qlt_le_dec a b); lra. Qed.

Lemma py_max_r (a b : Q) : b <= py_max a b.
Proof. unfold py_max. destruct (Qlt_le_dec a b); lra. Qed.

Lemma py_index_ok {A : Type} (l : list A) (i : nat) :
  (i < List.length l)%nat -> exists a, py_index l i = Ok a.
Proof.
  intros H. unfold py_index.
  destruct (nth_error l i) eqn:E; [eexists; reflexivity|].
  apply nth_error_None in E. lia.
Qed.

Section Planning.

Variable stringWidth : string -> string -> Q -> Q.

Lemma header_maxima_ok (payment : Payment) (discount : option Q) :
  exists m,
    header_maxima stringWidth
      (column_indices (show_discount discount) (show_rate payment))
      (headers payment discount) = Ok m.
Proof.
  unfold headers.
  destruct (show_discount discount), (show_rate payment);
    eexists; reflexivity.
Qed.

Lemma measure_row_ok (sd sr : bool) (m : maxima) (row : list string) :
  List.length row = S (amount_idx (column_indices sd sr)) ->
  exists m', measure_row stringWidth (column_indices sd sr) m row = Ok m'.
Proof.
  intros H.
  destruct sd, sr; simpl in H;
    repeat (destruct row as [|? row]; try discriminate H);
    eexists; reflexivity.
Qed.

Lemma measure_rows_ok (sd sr : bool) (rows : list (list string)) :
  Forall (fun row =>
            List.length row = S (amount_idx (column_indices sd sr))) rows ->
  forall m, exists m',
    measure_rows stringWidth (column_indices sd sr) m rows = Ok m'.
Proof.
  induction 1 as [|row rows Hrow _ IH]; intros m; simpl.
  - eexists; reflexivity.
  - destruct (measure_row_ok sd sr m row Hrow) as [m1 E]. rewrite E. simpl.
    apply IH.
Qed.

End Planning.

Lemma py_max_eq_l (a b : Q) : b <= a -> py_max a b = a.
Proof.
  intros H. unfold py_max. destruct (Qlt_le_dec a b); [exfalso; lra|easy].
Qed.

Lemma Qsum_col_widths (sd sr : bool) (w : widths) :
  (if sd then True else discount_w w == 0) ->
  (if sr then True else rate_w w == 0) ->
  Qsum (col_widths (column_indices sd sr) w) == desc_w w + other_sum w.
Proof.
  intros Hd Hr. unfold other_sum. destruct sd, sr; simpl; lra.
Qed.

Lemma col_widths_length (sd sr : bool) (w : widths) :
  List.length (col_widths (column_indices sd sr) w) =
  S (amount_idx (column_indices sd sr)).
Proof. destruct sd, sr; reflexivity. Qed.

Lemma shrink_columns_spec (W : Q) (sd sr : bool) (f : widths) :
  0 < other_sum f ->
  (if sd then True else discount_w f == 0) ->
  (if sr then True else rate_w f == 0) ->
  exists w,
    shrink_columns W (column_indices sd sr) f = Ok w /\
    desc_min <= desc_w w /\
    (if sd then True else discount_w w == 0) /\
    (if sr then True else rate_w w == 0) /\
    ((5 # 2) * desc_min <= W -> desc_w w + other_sum w == W).
Proof.
  intros Hpos Hd Hr. unfold shrink_columns.
  destruct (Qle_bool (other_sum f) 0) eqn:E.
  { apply Qle_bool_imp_le in E. exfalso. lra. }
  assert (Hnz : ~ other_sum f == 0) by lra.
  rewrite (py_div_ok _ _ Hnz). unfold bind.
  eexists. split; [reflexivity|]. simpl.
  split; [apply py_max_l|].
  set (T := py_max (W - desc_min) (W * 0.6)).
  set (s := T / other_sum f).
  assert (Hs : other_sum f * s == T) by (unfold s; field; assumption).
  assert (HT : W - desc_min <= T) by apply py_max_l.
  unfold other_sum in *.
  destruct f as [q de u d r a]. simpl in *.
  split; [|split].
  - destruct sd; simpl; auto.
  - destruct sd, sr; simpl; auto.
  - intros HW.
    assert (HT' : T = W - desc_min).
    { unfold T. apply py_max_eq_l. lra. }
    assert (Hsum :
      q * s + u * s + a * s +
      (match discount_idx (column_indices sd sr) with
       | Some _ => d * s | None => d end) +
      (match rate_idx (column_indices sd sr) with
       | Some _ => r * s | None => r end) == T).
    { rewrite <- Hs.
      destruct sd, sr; simpl; try rewrite Hd; try rewrite Hr; ring. }
    rewrite py_max_eq_l; [rewrite Hsum, HT'; ring|].
    rewrite Hsum. lra.
Qed.

Lemma fit_columns_spec (W : Q) (sd sr : bool) (m : maxima) :
  let f := fit_columns W (column_indices sd sr) m in
  qty_min <= qty_w f /\ unit_min <= unit_w f /\ amount_min <= amount_w f /\
  (if sd then discount_min <= discount_w f else discount_w f == 0) /\
  (if sr then rate_min <= rate_w f else rate_w f == 0) /\
  desc_w f + other_sum f == W.
Proof.
  unfold fit_columns, other_sum.
  destruct sd, sr; simpl; repeat split;
    try apply py_max_l; try reflexivity; ring.
Qed.

Lemma minimums_pos :
  0 < qty_min /\ 0 < unit_min /\ 0 < amount_min /\ 0 < discount_min /\
  0 < rate_min /\ 0 < desc_min.
Proof. repeat split; reflexivity. Qed.

Lemma role_minimums_sum (sd sr : bool) :
  (5 # 2) * desc_min <= Qsum (role_minimums (column_indices sd sr)).
Proof.
  pose proof mm_pos as Hmm.
  unfold role_minimums.
  destruct sd, sr; simpl;
    unfold desc_min, qty_min, unit_min, amount_min, discount_min, rate_min;
    lra.
Qed.

(** What [allocate] returns: it never raises, the description keeps its
    minimum, and either the fitted widths are returned unchanged or the
    remainder left by them was below [desc_min]. *)
Lemma allocate_spec (W : Q) (sd sr : bool) (m : maxima) :
  exists w,
    allocate W (column_indices sd sr) m = Ok w /\
    desc_min <= desc_w w /\
    (if sd then True else discount_w w == 0) /\
    (if sr then True else rate_w w == 0) /\
    ((5 # 2) * desc_min <= W -> desc_w w + other_sum w == W) /\
    (desc_w (fit_columns W (column_indices sd sr) m) < desc_min \/
     w = fit_columns W (column_indices sd sr) m).
Proof.
  destruct (fit_columns_spec W sd sr m) as (Hq & Hu & Ha & Hd & Hr & Hsum).
  destruct minimums_pos as (Pq & Pu & Pa & Pd & Pr & _).
  unfold allocate.
  set (f := fit_columns W (column_indices sd sr) m) in *.
  assert (Hd0 : if sd then True else discount_w f == 0).
  { destruct sd; [exact I|exact Hd]. }
  assert (Hr0 : if sr then True else rate_w f == 0).
  { destruct sr; [exact I|exact Hr]. }
  destruct (Qlt_le_dec (desc_w f) desc_min) as [Hlt|Hge].
  - assert (Hpos : 0 < other_sum f).
    { unfold other_sum. destruct sd, sr; lra. }
    destruct (shrink_columns_spec W sd sr f Hpos Hd0 Hr0)
      as (w & E & H1 & H2 & H3 & H4).
    exists w. repeat split; auto.
  - exists f. repeat split; auto.
Qed.

Section Document.

Variable stringWidth : string -> string -> Q -> Q.
Variable urlparse_scheme : string -> result string.
Variable urlopen_read : string -> result string.
Variable ImageReader : image_source -> result image_reader.

Lemma table_maxima_ok (payment : Payment) (discount : option Q)
    (rows : list (list string)) :
  table_rows payment discount = Ok rows ->
  exists m,
    table_maxima stringWidth
      (column_indices (show_discount discount) (show_rate payment))
      (headers payment discount :: rows) = Ok m.
Proof.
  intros Hrows.
  destruct (table_rows_ok payment discount) as (rows' & E & HF & _).
  rewrite Hrows in E. injection E as <-.
  unfold table_maxima. simpl.
  destruct (header_maxima_ok stringWidth payment discount) as [m0 E0].
  rewrite E0. simpl.
  apply measure_rows_ok.
  eapply Forall_impl; [|exact HF].
  intros row Hrow. simpl in Hrow. now rewrite Hrow, headers_length.
Qed.

(** The column plan of every payment exists; it is the one [allocate]
    computes from the measured maxima. *)
Lemma plan_widths_ok (W : Q) (payment : Payment) (discount : option Q) :
  let ci := column_indices (show_discount discount) (show_rate payment) in
  exists rows m w,
    table_rows payment discount = Ok rows /\
    table_maxima stringWidth ci (headers payment discount :: rows) = Ok m /\
    allocate W ci m = Ok w /\
    plan_widths stringWidth W ci (headers payment discount :: rows) = Ok w /\
    invoice_col_widths stringWidth W payment discount
    = Ok (col_widths ci w).
Proof.
  intros ci.
  destruct (table_rows_ok payment discount) as (rows & Hrows & _).
  destruct (table_maxima_ok payment discount rows Hrows) as [m Hm].
  destruct (allocate_spec W (show_discount discount) (show_rate payment) m)
    as (w & Hw & _).
  exists rows, m, w.
  assert (Hplan :
    plan_widths stringWidth W ci (headers payment discount :: rows) = Ok w).
  { unfold plan_widths. fold ci in Hm. rewrite Hm. exact Hw. }
  repeat split; auto.
  unfold invoice_col_widths, table_data. rewrite Hrows. simpl.
  fold ci. rewrite Hplan. reflexivity.
Qed.



(** ** The document *)

(** Rendering never raises, and the header image only contributes the
    leading flowables. *)
Lemma generate_invoice_pdf_ok (payment : Payment) (client_name : string)
    (discount : option Q) :
  exists body,
    Forall (fun f => is_banner f = false) body /\
    forall header_image,
      generate_invoice_pdf stringWidth urlparse_scheme urlopen_read
        ImageReader payment client_name discount header_image
      = Ok (header_image_flow urlparse_scheme urlopen_read ImageReader
              header_image ++ body)%list.
Proof.
  destruct (plan_widths_ok doc_width payment discount)
    as (rows & m & w & Hrows & _ & _ & Hplan & _).
  assert (Htotal : exists total,
    (if show_rate payment then py_div (amount payment) (rate payment)
     else Ok (amount payment)) = Ok total).
  { destruct (show_rate payment) eqn:Hr; [|eexists; reflexivity].
    rewrite (py_div_ok _ _ (show_rate_nonzero _ Hr)). eexists; reflexivity. }
  destruct Htotal as [total Htotal].
  eexists. split; [|intros header_image].
  2:{ unfold generate_invoice_pdf, table_data.
      rewrite Hrows. unfold bind at 1. unfold bind at 1.
      rewrite Hplan. unfold bind at 1. rewrite Htotal. unfold bind.
      rewrite <- !app_assoc. reflexivity. }
  simpl. repeat constructor.
Qed.


End Document.




(** * [create_framed_image] *)

Local Open Scope Z_scope.

Lemma int_div_ok (a b : Z) :
  b <> 0 -> EdgeWrapped.int_div a b = Ok (inject_Z a / inject_Z b)%Q.
Proof.
  intros Hb. unfold EdgeWrapped.int_div.
  destruct (Z.eqb_spec b 0); [contradiction|reflexivity].
Qed.




(** ** The caption *)

Lemma cons_head_nonempty (c : ascii) (l : list string) :
  Str.cons_head c l <> [].
Proof. destruct l; discriminate. Qed.

Lemma split_comma_space_nonempty (s : string) :
  Str.split_comma_space s <> [].
Proof.
  destruct s as [|c [|d rest]]; try discriminate.
  change (Str.split_comma_space (String c (String d rest)))
    with (if Ascii.eqb c "," && Ascii.eqb d " "
          then EmptyString :: Str.split_comma_space rest
          else Str.cons_head c (Str.split_comma_space (String d rest))).
  destruct (Ascii.eqb c "," && Ascii.eqb d " ");
    [discriminate|apply cons_head_nonempty].
Qed.

Lemma join_cons (sep x : string) (l : list string) :
  l <> [] -> Str.join sep (x :: l) = (x ++ sep ++ Str.join sep l)%string.
Proof. destruct l; [contradiction|reflexivity]. Qed.

Lemma join_cons_head (sep : string) (c : ascii) (l : list string) :
  l <> [] ->
  Str.join sep (Str.cons_head c l) = String c (Str.join sep l).
Proof.
  destruct l as [|w [|w' ws]]; [contradiction|reflexivity|reflexivity].
Qed.

(** Splitting on ", " and joining with ", " gives the text back. *)
Lemma join_split_comma_space (s : string) :
  Str.join ", " (Str.split_comma_space s) = s.
Proof.
  assert (H : forall n s, (String.length s <= n)%nat ->
                          Str.join ", " (Str.split_comma_space s) = s).
  { clear s. induction n as [|n IH]; intros s Hlen.
    - destruct s; [reflexivity|simpl in Hlen; lia].
    - destruct s as [|c [|d rest]]; try reflexivity.
      change (Str.split_comma_space (String c (String d rest)))
        with (if Ascii.eqb c "," && Ascii.eqb d " "
              then EmptyString :: Str.split_comma_space rest
              else Str.cons_head c (Str.split_comma_space (String d rest))).
      simpl in Hlen.
      destruct (Ascii.eqb c "," && Ascii.eqb d " ") eqn:E.
      + apply andb_true_iff in E. destruct E as [Ec Ed].
        apply Ascii.eqb_eq in Ec, Ed. subst c d.
        rewrite join_cons by apply split_comma_space_nonempty.
        rewrite IH by lia. reflexivity.
      + rewrite join_cons_head by apply split_comma_space_nonempty.
        rewrite IH by (simpl; lia). reflexivity. }
  apply (H (String.length s)). lia.
Qed.

Lemma append_assoc (a b c : string) :
  ((a ++ b) ++ c = a ++ (b ++ c))%string.
Proof. induction a as [|x a IH]; simpl; [reflexivity|now rewrite IH]. Qed.

Lemma join_merge_head (cur word : string) (words : list string) :
  Str.join ", " ((cur ++ ", " ++ word)%string :: words)
  = Str.join ", " (cur :: word :: words).
Proof.
  destruct words as [|w ws]; [reflexivity|].
  rewrite !join_cons by discriminate.
  rewrite !append_assoc. reflexivity.
Qed.

Lemma join_space_merge_last (lines : list string) (a b : string) :
  Str.join " " (lines ++ [a; b])
  = Str.join " " (lines ++ [(a ++ " " ++ b)%string]).
Proof.
  induction lines as [|l lines IH]; [reflexivity|].
  rewrite <- !app_comm_cons.
  rewrite !join_cons by (destruct lines; discriminate).
  now rewrite IH.
Qed.

Section CaptionFacts.

Variable text_width : string -> Q.

(** The loop only moves words between lines: joining its lines with a space
    gives the lines flushed so far followed by the pending words joined
    with ", ". *)
Lemma wrap_loop_join (available : Z) (words : list string) :
  forall (lines : list string) (current_line : string),
    Str.join " "
      (EdgeWrapped.wrap_loop text_width available lines current_line words)
    = Str.join " " (lines ++ [Str.join ", " (current_line :: words)]).
Proof.
  induction words as [|word words IH]; intros lines current_line.
  - reflexivity.
  - cbn [EdgeWrapped.wrap_loop].
    destruct (Qle_bool _ _).
    + rewrite IH, join_merge_head. reflexivity.
    + rewrite IH, <- app_assoc. cbn [app].
      rewrite join_space_merge_last.
      rewrite (join_cons ", " current_line) by discriminate.
      rewrite append_assoc. reflexivity.
Qed.

Lemma wrap_loop_nonempty (available : Z) (words : list string) :
  forall (lines : list string) (current_line : string),
    EdgeWrapped.wrap_loop text_width available lines current_line words
    <> [].
Proof.
  induction words as [|word words IH]; intros lines current_line.
  - destruct lines; discriminate.
  - cbn [EdgeWrapped.wrap_loop]. destruct (Qle_bool _ _); apply IH.
Qed.

(** C5, amended. The caption always has at least one line, and rejoining
    its lines with a single space reproduces the uppercased, comma-joined
    caption exactly (a line that is not the last one already ends with the
    comma that followed its last word). *)
Theorem caption_lines_rejoin (canvas_width : Z) (popups : list string) :
  exists lines,
    EdgeWrapped.subtitle_lines text_width canvas_width popups = Ok lines /\
    lines <> [] /\
    Str.join " " lines = EdgeWrapped.subtitle_text popups.
Proof.
  unfold EdgeWrapped.subtitle_lines.
  destruct (Qle_bool _ _).
  - eexists. split; [reflexivity|]. split; [discriminate|reflexivity].
  - pose proof (split_comma_space_nonempty
                  (EdgeWrapped.subtitle_text popups)) as Hne.
    pose proof (join_split_comma_space
                  (EdgeWrapped.subtitle_text popups)) as Hjoin.
    destruct (Str.split_comma_space (EdgeWrapped.subtitle_text popups))
      as [|w ws]; [contradiction|].
    eexists. split; [reflexivity|]. split.
    + apply wrap_loop_nonempty.
    + rewrite wrap_loop_join. exact Hjoin.
Qed.

End CaptionFacts.

(** C5, as the specification states it, fails: a wrapped line keeps the
    comma that followed its last word, so rejoining the lines with ", "
    doubles that comma. *)
Lemma rejoin_with_comma_space_doubles_comma :
  exists lines,
    EdgeWrapped.subtitle_lines Examples.forty_px 2040 Examples.four_popups
    = Ok lines /\
    lines = ["EDGE AUSTIN, EDGE PATAGONIA, EDGE ESMERALDA,"; "EDGE LANNA"]
    /\
    Str.join ", " lines
    = "EDGE AUSTIN, EDGE PATAGONIA, EDGE ESMERALDA,, EDGE LANNA" /\
    Str.join ", " lines <> EdgeWrapped.subtitle_text Examples.four_popups.
Proof.
  eexists. split; [vm_compute; reflexivity|].
  repeat split. vm_compute. discriminate.
Qed.

(** * Further properties of [app/core/invoice.py] *)

(** ** Number formatting *)

Lemma all_chars_app (P : ascii -> bool) (a b : string) :
  Text.all_chars P (a ++ b)
  = Text.all_chars P a && Text.all_chars P b.
Proof.
  induction a as [|c a IH]; simpl; [reflexivity|].
  now rewrite IH, andb_assoc.
Qed.

Lemma all_chars_impl (P R : ascii -> bool) (s : string) :
  (forall c, P c = true -> R c = true) ->
  Text.all_chars P s = true -> Text.all_chars R s = true.
Proof.
  intros H. induction s as [|c s IH]; simpl; [reflexivity|].
  intros [Hc Hs]%andb_true_iff. rewrite (H c Hc). simpl. auto.
Qed.

Lemma map_chars_app (f : ascii -> ascii) (a b : string) :
  Text.map_chars f (a ++ b)
  = (Text.map_chars f a ++ Text.map_chars f b)%string.
Proof. induction a as [|c a IH]; simpl; [reflexivity|now rewrite IH]. Qed.

Lemma digit_is_digit (n : Z) : Text.is_digit (Str.digit (n mod 10)) = true.
Proof.
  pose proof (Z.mod_pos_bound n 10 ltac:(lia)) as H.
  remember (n mod 10)%Z as k eqn:Ek. clear Ek.
  assert (Hk : (k = 0 \/ k = 1 \/ k = 2 \/ k = 3 \/ k = 4 \/ k = 5 \/ k = 6
               \/ k = 7 \/ k = 8 \/ k = 9)%Z) by lia.
  repeat (destruct Hk as [-> | Hk]; [reflexivity|]). now subst k.
Qed.

Lemma digits_fuel_digits (fuel : nat) :
  forall (n : Z) (acc : string),
    Text.all_chars Text.is_digit acc = true ->
    Text.all_chars Text.is_digit (Str.digits_fuel fuel n acc) = true.
Proof.
  induction fuel as [|fuel IH]; intros n acc Hacc;
    cbn [Str.digits_fuel]; [exact Hacc|].
  assert (H : Text.all_chars Text.is_digit
                (String (Str.digit (n mod 10)) acc) = true).
  { cbn [Text.all_chars]. now rewrite digit_is_digit, Hacc. }
  destruct (n <? 10)%Z; [exact H|apply IH, H].
Qed.

Lemma digits_digits (n : Z) :
  Text.all_chars Text.is_digit (Str.digits n) = true.
Proof. apply digits_fuel_digits. reflexivity. Qed.

Lemma digits_fuel_length (fuel : nat) :
  forall (n : Z) (acc : string) (d : nat),
    (0 <= n < 10 ^ Z.of_nat d)%Z -> (1 <= d)%nat ->
    (String.length (Str.digits_fuel fuel n acc)
     <= String.length acc + d)%nat.
Proof.
  induction fuel as [|fuel IH]; intros n acc d Hn Hd;
    cbn [Str.digits_fuel]; [lia|].
  destruct (Z.ltb_spec n 10) as [Hlt|Hge]; [cbn [String.length]; lia|].
  destruct d as [|[|d]]; [lia| |].
  - change (10 ^ Z.of_nat 1)%Z with 10%Z in Hn. lia.
  - assert (Hdiv : (0 <= n / 10 < 10 ^ Z.of_nat (S d))%Z).
    { replace (Z.of_nat (S (S d))) with (Z.of_nat (S d) + 1)%Z in Hn by lia.
      rewrite Z.pow_add_r in Hn by lia. change (10 ^ 1)%Z with 10%Z in Hn.
      split; [apply Z.div_pos; lia|].
      apply Z.div_lt_upper_bound; lia. }
    specialize (IH (n / 10)%Z (String (Str.digit (n mod 10)) acc) (S d)
                  Hdiv ltac:(lia)).
    cbn [String.length] in IH. lia.
Qed.

Lemma zeros_length (k : nat) : String.length (Str.zeros k) = k.
Proof. induction k; simpl; congruence. Qed.

Lemma zeros_digits (k : nat) :
  Text.all_chars Text.is_digit (Str.zeros k) = true.
Proof. induction k; simpl; auto. Qed.

Lemma string_length_app (a b : string) :
  String.length (a ++ b) = (String.length a + String.length b)%nat.
Proof. induction a as [|c a IH]; simpl; [reflexivity|now rewrite IH]. Qed.

(** The fractional digits of a fixed-point rendering. *)
Lemma fraction_digits (d : nat) (n : Z) :
  (1 <= d)%nat ->
  let fp := Str.zfill d (Str.digits (n mod 10 ^ Z.of_nat d)) in
  String.length fp = d /\ Text.all_chars Text.is_digit fp = true.
Proof.
  intros Hd fp. unfold fp, Str.zfill.
  assert (Hp : (0 < 10 ^ Z.of_nat d)%Z) by (apply Z.pow_pos_nonneg; lia).
  pose proof (Z.mod_pos_bound n _ Hp) as Hm.
  pose proof (digits_fuel_length
                (S (Z.to_nat (Z.log2 (n mod 10 ^ Z.of_nat d))))
                _ EmptyString d Hm Hd) as Hlen.
  fold (Str.digits (n mod 10 ^ Z.of_nat d)) in Hlen.
  cbn [String.length] in Hlen.
  split.
  - rewrite string_length_app, zeros_length. lia.
  - now rewrite all_chars_app, zeros_digits, digits_digits.
Qed.

Lemma group3_chars (P : ascii -> bool) (s : string) :
  P ","%char = true ->
  Text.all_chars P s = true -> Text.all_chars P (Str.group3 s) = true.
Proof.
  intros Hc. induction s as [|c s IH]; [reflexivity|].
  cbn [Text.all_chars Str.group3].
  intros [Hh Ht]%andb_true_iff.
  destruct ((0 <? String.length s)%nat && (String.length s mod 3 =? 0)%nat);
    cbn [Text.all_chars]; rewrite Hh, ?Hc, (IH Ht); reflexivity.
Qed.

Lemma digit_number_char (c : ascii) :
  Text.is_digit c = true -> Text.number_char c = true.
Proof. intros H. unfold Text.number_char. now rewrite H. Qed.

Lemma format_fixed_chars (grouping : bool) (decimals : nat) (value : Q) :
  Text.all_chars Text.number_char (format_fixed grouping decimals value)
  = true.
Proof.
  unfold format_fixed.
  set (n := round_half_even _).
  rewrite !all_chars_app.
  assert (Hip : Text.all_chars Text.number_char
                  (Str.digits (n / 10 ^ Z.of_nat decimals)) = true).
  { eapply all_chars_impl; [apply digit_number_char|apply digits_digits]. }
  apply andb_true_iff. split; [|apply andb_true_iff; split].
  - destruct (Qlt_le_dec value 0); reflexivity.
  - destruct grouping; [apply group3_chars; [reflexivity|]|]; exact Hip.
  - destruct decimals as [|d]; [reflexivity|].
    destruct (fraction_digits (S d) n ltac:(lia)) as [_ H].
    cbn [String.append Text.all_chars]. change (Text.number_char ".") with true.
    eapply all_chars_impl; [apply digit_number_char|exact H].
Qed.

(** The placeholder ["X"] of the three replacements never meets an ["X"] of
    the number. *)
Lemma replace_chain_swaps (s : string) :
  Text.all_chars Text.number_char s = true ->
  Str.replace_char "X" "."
    (Str.replace_char "." "," (Str.replace_char "," "X" s))
  = Text.map_chars Text.swap_separators s.
Proof.
  induction s as [|c s IH]; simpl; [reflexivity|].
  intros [Hc Hs]%andb_true_iff. rewrite (IH Hs). f_equal.
  unfold Text.swap_separators.
  destruct (Ascii.eqb_spec c ",") as [->|Hcomma]; [reflexivity|].
  destruct (Ascii.eqb_spec c ".") as [->|Hdot]; [reflexivity|].
  destruct (Ascii.eqb_spec c "X") as [->|HX]; [discriminate Hc|reflexivity].
Qed.

Lemma money_is_swapped_fixed (value : Q) (decimals : nat) :
  _format_money value decimals
  = Text.map_chars Text.swap_separators (format_fixed true decimals value).
Proof. apply replace_chain_swaps, format_fixed_chars. Qed.

(** X1. [_format_money] is the grouped fixed-point rendering with every
    [","] and ["."] exchanged: the intermediate ["X"] of the three
    [replace] calls never collides with a character of the number. *)
Theorem format_money_swaps_separators (value : Q) (decimals : nat) :
  _format_money value decimals
  = Text.map_chars Text.swap_separators (format_fixed true decimals value).
Proof. apply money_is_swapped_fixed. Qed.

Lemma swap_digits (s : string) :
  Text.all_chars Text.is_digit s = true ->
  Text.map_chars Text.swap_separators s = s.
Proof.
  induction s as [|c s IH]; [reflexivity|].
  cbn [Text.all_chars Text.map_chars].
  intros [Hc Hs]%andb_true_iff. rewrite (IH Hs). f_equal.
  unfold Text.swap_separators.
  destruct (Ascii.eqb_spec c ",") as [->|_]; [discriminate Hc|].
  destruct (Ascii.eqb_spec c ".") as [->|_]; [discriminate Hc|reflexivity].
Qed.

Lemma swap_leaves_no_comma (s : string) :
  Text.all_chars (fun c => negb (Ascii.eqb c ".")) s = true ->
  Text.all_chars Text.not_comma (Text.map_chars Text.swap_separators s)
  = true.
Proof.
  induction s as [|c s IH]; [reflexivity|].
  cbn [Text.all_chars Text.map_chars].
  intros [Hc Hs]%andb_true_iff. rewrite (IH Hs), andb_true_r.
  unfold Text.swap_separators, Text.not_comma.
  destruct (Ascii.eqb_spec c ",") as [->|Hcomma]; [reflexivity|].
  destruct (Ascii.eqb_spec c ".") as [->|_]; [discriminate Hc|].
  now destruct (Ascii.eqb_spec c ",").
Qed.

Lemma digit_not_dot (c : ascii) :
  Text.is_digit c = true -> negb (Ascii.eqb c ".") = true.
Proof.
  intros H. destruct (Ascii.eqb_spec c ".") as [->|_];
    [discriminate H|reflexivity].
Qed.

Lemma format_money_fraction (value : Q) (d : nat) :
  exists ip fp,
    _format_money value (S d) = (ip ++ "," ++ fp)%string /\
    String.length fp = S d /\
    Text.all_chars Text.is_digit fp = true /\
    Text.all_chars Text.not_comma ip = true.
Proof.
  rewrite money_is_swapped_fixed. unfold format_fixed.
  set (n := round_half_even _).
  destruct (fraction_digits (S d) n ltac:(lia)) as [Hlen Hdig].
  set (fp := Str.zfill (S d) _) in *.
  set (sign := if Qlt_le_dec value 0 then "-"%string else EmptyString).
  set (ip := Str.group3 _).
  exists (Text.map_chars Text.swap_separators (sign ++ ip)), fp.
  split; [|split; [exact Hlen|split; [exact Hdig|]]].
  - rewrite <- append_assoc, map_chars_app.
    cbn [String.append Text.map_chars]. rewrite (swap_digits fp Hdig).
    reflexivity.
  - apply swap_leaves_no_comma. rewrite all_chars_app.
    apply andb_true_iff. split.
    + unfold sign. destruct (Qlt_le_dec value 0); reflexivity.
    + apply group3_chars; [reflexivity|].
      eapply all_chars_impl; [apply digit_not_dot|apply digits_digits].
Qed.

(** X2. [format_currency] prints exactly 8 fractional digits for BTC and
    ETH, in any letter case, and exactly 2 for every other code: the result
    is an integer part without [","], then [","], then that many digits. *)
Theorem format_currency_decimals (value : Q) (currency : string) :
  exists ip fp,
    format_currency value currency = (ip ++ "," ++ fp)%string /\
    String.length fp
    = (if is_crypto_currency currency then 8 else 2)%nat /\
    Text.all_chars Text.is_digit fp = true /\
    Text.all_chars Text.not_comma ip = true.
Proof.
  unfold format_currency.
  destruct (is_crypto_currency currency); apply format_money_fraction.
Qed.

(** ** Rows and discount *)

Local Open Scope Q_scope.

(** X3. A discount of 0 is a supplied discount: the row gets the cell "0%"
    after the unit price, and every other cell, the amount included, is the
    cell of the row built without discount. *)
Theorem zero_discount_only_adds_cell (payment : Payment)
    (item : ProductSnapshot) :
  exists row,
    build_row payment None item = Ok row /\
    build_row payment (Some 0) item
    = Ok (firstn 3 row ++ ["0%"%string] ++ skipn 3 row)%list.
Proof.
  unfold build_row. destruct (show_rate payment) eqn:Hr.
  - rewrite (py_div_ok _ _ (show_rate_nonzero _ Hr)). unfold bind.
    eexists. split; reflexivity.
  - eexists. split; reflexivity.
Qed.

(** ** The shrink branch *)

Lemma shrink_columns_scale (W : Q) (sd sr : bool) (f : widths) :
  (if sd then True else discount_w f == 0) ->
  (if sr then True else rate_w f == 0) ->
  0 < other_sum f ->
  W - other_sum f < desc_min ->
  (5 # 2) * desc_min <= W ->
  exists w s,
    shrink_columns W (column_indices sd sr) f = Ok w /\
    0 < s /\ s < 1 /\
    qty_w w == qty_w f * s /\
    unit_w w == unit_w f * s /\
    amount_w w == amount_w f * s /\
    discount_w w == discount_w f * s /\
    rate_w w == rate_w f * s /\
    desc_w w == desc_min.
Proof.
  intros Hd Hr Hpos Hlt HW. unfold shrink_columns.
  destruct (Qle_bool (other_sum f) 0) eqn:E.
  { apply Qle_bool_imp_le in E. exfalso. lra. }
  assert (Hnz : ~ other_sum f == 0) by lra.
  rewrite (py_div_ok _ _ Hnz). unfold bind.
  destruct minimums_pos as (_ & _ & _ & _ & _ & Pdesc).
  assert (HT : py_max (W - desc_min) (W * 0.6) = W - desc_min).
  { apply py_max_eq_l. lra. }
  rewrite HT.
  set (s := (W - desc_min) / other_sum f).
  assert (Hs : other_sum f * s == W - desc_min).
  { unfold s. field. assumption. }
  assert (Hs0 : 0 < s).
  { unfold s. apply Qlt_shift_div_l; [assumption|lra]. }
  assert (Hs1 : s < 1).
  { unfold s. apply Qlt_shift_div_r; [assumption|lra]. }
  eexists. exists s. split; [reflexivity|].
  unfold other_sum in *. destruct f as [q de u d r a]. simpl in *.
  repeat split; try assumption; try reflexivity.
  - destruct sd; simpl; [reflexivity|]. rewrite Hd. ring.
  - destruct sr; simpl; [reflexivity|]. destruct sd; rewrite Hr; ring.
  - assert (Hsum :
      q * s + u * s + a * s +
      (match discount_idx (column_indices sd sr) with
       | Some _ => d * s | None => d end) +
      (match rate_idx (column_indices sd sr) with
       | Some _ => r * s | None => r end) == W - desc_min).
    { rewrite <- Hs.
      destruct sd, sr; simpl; try rewrite Hd; try rewrite Hr; ring. }
    rewrite py_max_eq_l; [reflexivity|]. rewrite Hsum. lra.
Qed.

(** X4. When the fitted widths leave less than 30 mm for the description on
    a page of usable width at least 75 mm, the description gets exactly
    30 mm and every other column is multiplied by one common factor
    strictly between 0 and 1: the columns get narrower and keep their
    proportions. *)
Theorem shrink_is_proportional (W : Q) (sd sr : bool) (m : maxima) :
  (5 # 2) * desc_min <= W ->
  desc_w (fit_columns W (column_indices sd sr) m) < desc_min ->
  exists w s,
    allocate W (column_indices sd sr) m = Ok w /\
    0 < s /\ s < 1 /\
    qty_w w == qty_w (fit_columns W (column_indices sd sr) m) * s /\
    unit_w w == unit_w (fit_columns W (column_indices sd sr) m) * s /\
    amount_w w == amount_w (fit_columns W (column_indices sd sr) m) * s /\
    discount_w w
    == discount_w (fit_columns W (column_indices sd sr) m) * s /\
    rate_w w == rate_w (fit_columns W (column_indices sd sr) m) * s /\
    desc_w w == desc_min.
Proof.
  intros HW Hlt.
  destruct (fit_columns_spec W sd sr m) as (Hq & Hu & Ha & Hd & Hr & Hsum).
  destruct minimums_pos as (Pq & Pu & Pa & Pd & Pr & _).
  unfold allocate.
  set (f := fit_columns W (column_indices sd sr) m) in *.
  destruct (Qlt_le_dec (desc_w f) desc_min) as [_|Hge]; [|exfalso; lra].
  apply shrink_columns_scale;
    [ destruct sd; [exact I|exact Hd]
    | destruct sr; [exact I|exact Hr]
    | unfold other_sum; destruct sd, sr; lra
    | lra
    | exact HW ].
Qed.

Lemma shrink_is_proportional_witness :
  (5 # 2) * desc_min <= doc_width /\
  desc_w (fit_columns doc_width (column_indices false true)
            Examples.wide_maxima) < desc_min /\
  exists w s,
    allocate doc_width (column_indices false true) Examples.wide_maxima
    = Ok w /\
    0 < s /\ s < 1 /\
    qty_w w
    == qty_w (fit_columns doc_width (column_indices false true)
                Examples.wide_maxima) * s /\
    unit_w w
    == unit_w (fit_columns doc_width (column_indices false true)
                 Examples.wide_maxima) * s /\
    amount_w w
    == amount_w (fit_columns doc_width (column_indices false true)
                   Examples.wide_maxima) * s /\
    discount_w w
    == discount_w (fit_columns doc_width (column_indices false true)
                     Examples.wide_maxima) * s /\
    rate_w w
    == rate_w (fit_columns doc_width (column_indices false true)
                 Examples.wide_maxima) * s /\
    desc_w w == desc_min.
Proof.
  assert (H1 : (5 # 2) * desc_min <= doc_width).
  { vm_compute. discriminate. }
  assert (H2 : desc_w (fit_columns doc_width (column_indices false true)
                         Examples.wide_maxima) < desc_min).
  { vm_compute. reflexivity. }
  split; [exact H1|split; [exact H2|]].
  exact (shrink_is_proportional doc_width false true Examples.wide_maxima
           H1 H2).
Defined.

(** ** The document, flowable by flowable *)

Lemma allocate_positive (W : Q) (sd sr : bool) (m : maxima) :
  (5 # 2) * desc_min <= W ->
  exists w,
    allocate W (column_indices sd sr) m = Ok w /\
    0 < qty_w w /\ 0 < desc_w w /\ 0 < unit_w w /\ 0 < amount_w w /\
    (if sd then 0 < discount_w w else True) /\
    (if sr then 0 < rate_w w else True).
Proof.
  intros HW.
  destruct (fit_columns_spec W sd sr m) as (Hq & Hu & Ha & Hd & Hr & Hsum).
  destruct minimums_pos as (Pq & Pu & Pa & Pd & Pr & Pdesc).
  unfold allocate.
  set (f := fit_columns W (column_indices sd sr) m) in *.
  destruct (Qlt_le_dec (desc_w f) desc_min) as [Hlt|Hge].
  - destruct (shrink_columns_scale W sd sr f) as
      (w & s & E & Hs0 & _ & Eq & Eu & Ea & Ed & Er & Edesc);
      [ destruct sd; [exact I|exact Hd]
      | destruct sr; [exact I|exact Hr]
      | unfold other_sum; destruct sd, sr; lra
      | lra
      | exact HW
      | ].
    exists w. split; [exact E|].
    rewrite Eq, Eu, Ea, Edesc.
    repeat split; try (apply Qmult_lt_0_compat; lra); try assumption.
    + destruct sd; [|exact I]. rewrite Ed. apply Qmult_lt_0_compat; lra.
    + destruct sr; [|exact I]. rewrite Er. apply Qmult_lt_0_compat; lra.
  - exists f. split; [reflexivity|].
    repeat split; try lra.
    + destruct sd; [lra|exact I].
    + destruct sr; [lra|exact I].
Qed.

Section DocumentShape.

Variable stringWidth : string -> string -> Q -> Q.
Variable urlparse_scheme : string -> result string.
Variable urlopen_read : string -> result string.
Variable ImageReader : image_source -> result image_reader.

(** The flowables of every invoice, after those of the header image. *)
Lemma generate_invoice_pdf_shape (payment : Payment) (client_name : string)
    (discount : option Q) :
  let ci := column_indices (show_discount discount) (show_rate payment) in
  exists rows w head,
    table_rows payment discount = Ok rows /\
    allocate doc_width ci
      match table_maxima stringWidth ci (headers payment discount :: rows)
      with Ok m => m | Raise _ => mk_maxima 0 0 0 0 0 end
    = Ok w /\
    forall header_image,
      generate_invoice_pdf stringWidth urlparse_scheme urlopen_read
        ImageReader payment client_name discount header_image
      = Ok (header_image_flow urlparse_scheme urlopen_read ImageReader
              header_image
            ++ head
            ++ [Table (headers payment discount :: rows) (col_widths ci w) 1;
                Spacer 1 12;
                Paragraph
                  ("<b>Total: " ++
                   format_currency
                     (if show_rate payment
                      then amount payment / rate payment
                      else amount payment) (currency payment) ++
                   " " ++ currency payment ++ "</b>") "Bold"])%list.
Proof.
  intros ci.
  destruct (plan_widths_ok stringWidth doc_width payment discount)
    as (rows & m & w & Hrows & Hm & Hw & Hplan & _).
  fold ci in Hm, Hw, Hplan.
  exists rows, w.
  exists [ Paragraph "Invoice" "Header"; Spacer 1 6;
           HeaderTable
             [ ("Edge Institute Inc", "Body");
               ("Address: 1300 S 6th St, Austin, TX 78704", "Body");
               ("Email: syl@edgecity.live", "Body") ]%string
             [ ("Date: " ++ format_date (created_at payment), "Right");
               ("Invoice #: " ++ Str.of_int (id payment), "Right");
               ("Bill to: " ++ client_name, "Right") ]%string
             [doc_width / 2; doc_width / 2];
           Spacer 1 12 ].
  rewrite Hm.
  split; [exact Hrows|split; [exact Hw|]]. intros header_image.
  unfold generate_invoice_pdf, table_data.
  rewrite Hrows. unfold bind at 1. unfold bind at 1. fold ci.
  rewrite Hplan. unfold bind at 1.
  destruct (show_rate payment) eqn:Hr.
  - rewrite (py_div_ok _ _ (show_rate_nonzero _ Hr)). unfold bind.
    f_equal. rewrite <- !app_assoc. reflexivity.
  - unfold bind. f_equal. rewrite <- !app_assoc. reflexivity.
Qed.




(** X8. An empty [header_image] string is treated like no header image:
    nothing is parsed, fetched or decoded, and the same document is
    rendered. *)
Theorem empty_header_image_is_none (payment : Payment)
    (client_name : string) (discount : option Q) :
  generate_invoice_pdf stringWidth urlparse_scheme urlopen_read
    ImageReader payment client_name discount (Some EmptyString)
  = generate_invoice_pdf stringWidth urlparse_scheme urlopen_read
      ImageReader payment client_name discount None.
Proof. reflexivity. Qed.

End DocumentShape.


(** * Further properties of [create_framed_image] *)

Local Open Scope Z_scope.

Lemma py_int_bounds (q : Q) (n : Z) :
  (0 <= q)%Q -> (q <= inject_Z n)%Q ->
  0 <= EdgeWrapped.py_int q <= n.
Proof.
  destruct q as [a b]. unfold Qle, EdgeWrapped.py_int. simpl.
  intros H0 Hn. rewrite Z.mul_1_r in H0.
  rewrite Z.quot_div_nonneg by lia. split.
  - apply Z.div_pos; lia.
  - apply Z.div_le_upper_bound; lia.
Qed.

Lemma py_int_of_integer (q : Q) (n : Z) :
  (q == inject_Z n)%Q -> EdgeWrapped.py_int q = n.
Proof.
  destruct q as [a b]. unfold Qeq, EdgeWrapped.py_int. simpl.
  rewrite Z.mul_1_r. intros ->. apply Z.quot_mul. lia.
Qed.

Lemma scaled_side_bounds (side avail : Z) (scale : Q) :
  0 < side -> 0 <= avail ->
  (0 <= scale)%Q -> (scale <= inject_Z avail / inject_Z side)%Q ->
  0 <= EdgeWrapped.py_int (inject_Z side * scale) <= avail.
Proof.
  intros Hside Havail H0 Hle.
  assert (Hs : (0 < inject_Z side)%Q).
  { unfold Qlt. simpl. lia. }
  apply py_int_bounds.
  - apply Qmult_le_0_compat; [apply Qlt_le_weak, Hs|exact H0].
  - apply Qle_trans
      with (inject_Z side * (inject_Z avail / inject_Z side))%Q.
    + apply Qmult_le_l; assumption.
    + apply Qle_lteq. right. field. intros E. rewrite E in Hs.
      discriminate Hs.
Qed.

Lemma ratio_nonneg (avail side : Z) :
  0 < side -> 0 <= avail -> (0 <= inject_Z avail / inject_Z side)%Q.
Proof.
  intros Hside Havail. apply Qle_shift_div_l.
  - unfold Qlt. simpl. lia.
  - unfold Qle. simpl. lia.
Qed.

Lemma py_min_bounds (a b : Q) :
  (0 <= a)%Q -> (0 <= b)%Q ->
  (0 <= py_min a b)%Q /\ (py_min a b <= a)%Q /\ (py_min a b <= b)%Q.
Proof.
  intros Ha Hb. unfold py_min.
  destruct (Qlt_le_dec b a); repeat split; lra.
Qed.





Section CaptionLines.

Variable text_width : string -> Q.

(** A line is acceptable for the words [all] and the width [available] when,
    up to the comma appended at a line break, it is one of the words or
    measures at most [available]. *)
Lemma wrap_loop_lines (available : Z) (all : list string)
    (words : list string) :
  forall (lines : list string) (current_line : string),
    (forall w, In w words -> In w all) ->
    (In current_line all \/
     (text_width current_line <= inject_Z available)%Q) ->
    Forall (fun line => exists body,
              (line = body \/ line = (body ++ ",")%string) /\
              (In body all \/ (text_width body <= inject_Z available)%Q))
           lines ->
    let result :=
      EdgeWrapped.wrap_loop text_width available lines current_line words in
    Forall (fun line => exists body,
              (line = body \/ line = (body ++ ",")%string) /\
              (In body all \/ (text_width body <= inject_Z available)%Q))
           result /\
    (List.length result <= List.length lines + 1 + List.length words)%nat.
Proof.
  induction words as [|word words IH]; intros lines current_line Hall Hcur Hl.
  - cbn [EdgeWrapped.wrap_loop]. split.
    + apply Forall_app. split; [exact Hl|].
      constructor; [|constructor]. exists current_line. auto.
    + rewrite length_app. simpl. lia.
  - cbn [EdgeWrapped.wrap_loop].
    destruct (Qle_bool _ _) eqn:E.
    + apply Qle_bool_iff in E.
      destruct (IH lines (current_line ++ ", " ++ word)%string) as [F L].
      * intros w Hw. apply Hall. now right.
      * now right.
      * exact Hl.
      * split; [exact F|]. cbv zeta in L. cbn [List.length]. lia.
    + destruct (IH (lines ++ [(current_line ++ ",")%string])%list word)
        as [F L].
      * intros w Hw. apply Hall. now right.
      * left. apply Hall. now left.
      * apply Forall_app. split; [exact Hl|].
        constructor; [|constructor]. exists current_line. auto.
      * split; [exact F|]. cbv zeta in L. rewrite length_app in L.
        cbn [List.length] in *. lia.
Qed.

(** X11. The caption has at most one line per comma-separated token, and
    every line is, up to the comma appended at a line break, either a single
    token or a text measured at most the available width
    [canvas_width - 40]: only a token that is too wide on its own (and the
    unmeasured trailing comma) can overflow. *)
Theorem caption_lines_fit (canvas_width : Z) (popups : list string) :
  let words :=
    Str.split_comma_space (EdgeWrapped.subtitle_text popups) in
  exists lines,
    EdgeWrapped.subtitle_lines text_width canvas_width popups = Ok lines /\
    (List.length lines <= List.length words)%nat /\
    Forall (fun line => exists body,
              (line = body \/ line = (body ++ ",")%string) /\
              (In body words \/
               (text_width body <= inject_Z (canvas_width - 40))%Q))
           lines.
Proof.
  intros words. unfold EdgeWrapped.subtitle_lines.
  pose proof (split_comma_space_nonempty
                (EdgeWrapped.subtitle_text popups)) as Hne.
  fold words in Hne |- *.
  destruct (Qle_bool _ _) eqn:E.
  - apply Qle_bool_iff in E. eexists. split; [reflexivity|]. split.
    + destruct words; [contradiction|simpl; lia].
    + constructor; [|constructor]. eexists. split; [left; reflexivity|].
      now right.
  - destruct words as [|w ws] eqn:Ew; [contradiction|].
    eexists. split; [reflexivity|]. cbn [tl].
    destruct (wrap_loop_lines (canvas_width - 40) (w :: ws) ws [] w)
      as [F L].
    + intros x Hx. now right.
    + left. now left.
    + constructor.
    + split; [cbv zeta in L; cbn [List.length] in *; lia|exact F].
Qed.

End CaptionLines.

(** * Properties of [generate_edge_wrapped] and [_get_ai_image] *)

Lemma mem_true_iff (x : string) (s : list string) :
  Wrapped.mem x s = true <-> In x s.
Proof.
  unfold Wrapped.mem. rewrite existsb_exists. split.
  - intros [y [Hy E]]. apply String.eqb_eq in E. now subst.
  - intros H. exists x. split; [exact H|apply String.eqb_refl].
Qed.

Lemma set_add_in (x y : string) (s : list string) :
  In y (Wrapped.set_add x s) <-> y = x \/ In y s.
Proof.
  unfold Wrapped.set_add. destruct (Wrapped.mem x s) eqn:E.
  - apply mem_true_iff in E. split; [auto|]. intros [->|H]; assumption.
  - rewrite in_app_iff. simpl. intuition.
Qed.

Lemma set_add_NoDup (x : string) (s : list string) :
  NoDup s -> NoDup (Wrapped.set_add x s).
Proof.
  intros H. unfold Wrapped.set_add. destruct (Wrapped.mem x s) eqn:E.
  - exact H.
  - apply NoDup_app; [exact H|repeat constructor; intros []|].
    intros y Hy [<-|[]]. apply mem_true_iff in Hy. congruence.
Qed.

Lemma first_match_in (popup : string) (map : list (string * string))
    (name code : string) :
  Wrapped.first_match popup map = Some (name, code) -> In (name, code) map.
Proof.
  induction map as [|[n c] map IH]; simpl; [discriminate|].
  destruct (Wrapped.contains _ _).
  - intros E. injection E as <- <-. now left.
  - intros E. right. auto.
Qed.

(** In [popups_map] a name determines its code and a code its name. *)
Lemma popups_map_injective (n c n' c' : string) :
  In (n, c) Wrapped.popups_map -> In (n', c') Wrapped.popups_map ->
  (n = n' <-> c = c').
Proof.
  unfold Wrapped.popups_map. simpl. intros H H'.
  repeat (destruct H as [H|H]; [injection H as <- <-|]); try contradiction;
    repeat (destruct H' as [H'|H']; [injection H' as <- <-|]);
    try contradiction; split; intros E; first [reflexivity|discriminate E].
Qed.

Lemma paired_add (locations codes : list string) (name code : string) :
  In (name, code) Wrapped.popups_map ->
  Wrapped.paired locations codes ->
  Wrapped.paired (Wrapped.set_add name locations) (Wrapped.set_add code codes).
Proof.
  intros Hin (entries & Hincl & -> & -> & Hl & Hc).
  assert (Hmem : Wrapped.mem name (map fst entries)
                 = Wrapped.mem code (map snd entries)).
  { apply eq_true_iff_eq. rewrite !mem_true_iff, !in_map_iff. split.
    - intros [[n c] [E H]]. simpl in E. subst n. exists (name, c).
      split; [simpl|exact H].
      symmetry. apply (popups_map_injective name code name c);
        [exact Hin|apply Hincl, H|reflexivity].
    - intros [[n c] [E H]]. simpl in E. subst c. exists (n, code).
      split; [simpl|exact H].
      symmetry. apply (popups_map_injective name code n code);
        [exact Hin|apply Hincl, H|reflexivity]. }
  unfold Wrapped.set_add. rewrite <- Hmem.
  destruct (Wrapped.mem name (map fst entries)) eqn:E.
  - exists entries. repeat split; assumption.
  - exists (entries ++ [(name, code)])%list. rewrite !map_app. simpl.
    repeat split.
    + intros p [H|[<-|[]]]%in_app_iff; [apply Hincl, H|exact Hin].
    + pose proof (set_add_NoDup name (map fst entries) Hl) as H.
      unfold Wrapped.set_add in H. now rewrite E in H.
    + pose proof (set_add_NoDup code (map snd entries) Hc) as H.
      unfold Wrapped.set_add in H. now rewrite <- Hmem in H.
Qed.

Lemma collect_paired (popups : list string) :
  forall locations codes,
    Wrapped.paired locations codes ->
    Wrapped.paired (fst (Wrapped.collect popups locations codes))
           (snd (Wrapped.collect popups locations codes)) /\
    (List.length (fst (Wrapped.collect popups locations codes))
     <= List.length locations + List.length popups)%nat.
Proof.
  induction popups as [|popup popups IH]; intros locations codes H.
  - simpl. split; [exact H|lia].
  - cbn [Wrapped.collect].
    destruct (Wrapped.first_match popup Wrapped.popups_map)
      as [[name code]|] eqn:E.
    + destruct (IH _ _ (paired_add _ _ _ _ (first_match_in _ _ _ _ E) H))
        as [P L].
      split; [exact P|].
      assert (List.length (Wrapped.set_add name locations)
              <= S (List.length locations))%nat.
      { unfold Wrapped.set_add. destruct (Wrapped.mem name locations);
          [lia|rewrite length_app; simpl; lia]. }
      simpl. lia.
    + destruct (IH _ _ H) as [P L]. split; [exact P|]. simpl. lia.
Qed.

(** X12. The number of villages shown is the number of distinct location
    names matched, which is also the number of codes used to pick the
    photo; it is at most the number of popups given and at most 6. *)
Theorem villages_count_is_code_count (popups : list string) :
  let locations := fst (Wrapped.collect popups [] []) in
  let codes := snd (Wrapped.collect popups [] []) in
  List.length locations = List.length codes /\
  NoDup locations /\ NoDup codes /\
  (List.length locations <= List.length popups)%nat /\
  (List.length locations <= 6)%nat.
Proof.
  intros locations codes.
  destruct (collect_paired popups [] []) as [P L].
  { exists []. split; [intros p []|]. repeat split; constructor. }
  fold locations codes in P. fold locations in L.
  destruct P as (entries & Hincl & El & Ec & Nl & Nc).
  split; [|split; [exact Nl|split; [exact Nc|split]]].
  - now rewrite El, Ec, !length_map.
  - exact L.
  - assert (H : incl locations (map fst Wrapped.popups_map)).
    { rewrite El. intros n [p [<- Hp]]%in_map_iff.
      apply in_map, Hincl, Hp. }
    apply (NoDup_incl_length Nl) in H. exact H.
Qed.

Lemma first_match_lower (popup popup' : string)
    (map : list (string * string)) :
  Wrapped.lower popup = Wrapped.lower popup' ->
  Wrapped.first_match popup map = Wrapped.first_match popup' map.
Proof.
  intros E. induction map as [|[n c] map IH]; simpl; [reflexivity|].
  now rewrite E, IH.
Qed.

(** X13. Matching ignores letter case: two lists of popups that agree once
    lowercased give the same locations and the same codes. *)
Theorem collect_ignores_case (popups popups' : list string) :
  Forall2 (fun p p' => Wrapped.lower p = Wrapped.lower p') popups popups' ->
  Wrapped.collect popups [] [] = Wrapped.collect popups' [] [].
Proof.
  generalize (@nil string) at 1 3. generalize (@nil string).
  intros codes locations H. revert locations codes.
  induction H as [|p p' ps ps' E _ IH]; intros locations codes;
    [reflexivity|].
  cbn [Wrapped.collect]. rewrite (first_match_lower p p' _ E).
  destruct (Wrapped.first_match p' Wrapped.popups_map) as [[n c]|];
    apply IH.
Qed.

Lemma collect_ignores_case_witness :
  Forall2 (fun p p' => Wrapped.lower p = Wrapped.lower p')
    ["EDGE AUSTIN"; "Edge Lanna"]%string
    ["edge austin"; "EDGE LANNA"]%string /\
  Wrapped.collect ["EDGE AUSTIN"; "Edge Lanna"]%string [] []
  = Wrapped.collect ["edge austin"; "EDGE LANNA"]%string [] [].
Proof.
  assert (H : Forall2 (fun p p' => Wrapped.lower p = Wrapped.lower p')
                ["EDGE AUSTIN"; "Edge Lanna"]%string
                ["edge austin"; "EDGE LANNA"]%string).
  { repeat constructor. }
  split; [exact H|].
  exact (collect_ignores_case _ _ H).
Defined.

(** The codes collected are the codes already there and the codes of the
    entries matched by the popups; likewise for the locations. *)
Lemma collect_in (popups : list string) :
  forall (locations codes : list string) (n c : string),
    (In c (snd (Wrapped.collect popups locations codes)) <->
     In c codes \/
     exists p n', In p popups /\
       Wrapped.first_match p Wrapped.popups_map = Some (n', c)) /\
    (In n (fst (Wrapped.collect popups locations codes)) <->
     In n locations \/
     exists p c', In p popups /\
       Wrapped.first_match p Wrapped.popups_map = Some (n, c')).
Proof.
  induction popups as [|popup popups IH]; intros locations codes n c.
  - simpl. split; split; auto; intros [H|(p & x & [] & _)]; exact H.
  - cbn [Wrapped.collect].
    destruct (Wrapped.first_match popup Wrapped.popups_map)
      as [[n0 c0]|] eqn:E.
    + destruct (IH (Wrapped.set_add n0 locations)
                  (Wrapped.set_add c0 codes) n c) as [Hc Hn].
      rewrite Hc, Hn, !set_add_in. clear Hc Hn IH.
      split; split.
      * intros [[->|H]|(p & x & Hp & Hm)]; [right|now left|right].
        -- exists popup, n0. split; [now left|exact E].
        -- exists p, x. split; [now right|exact Hm].
      * intros [H|(p & x & [<-|Hp] & Hm)].
        -- left. now right.
        -- rewrite E in Hm. injection Hm as _ ->. left. now left.
        -- right. exists p, x. auto.
      * intros [[->|H]|(p & x & Hp & Hm)]; [right|now left|right].
        -- exists popup, c0. split; [now left|exact E].
        -- exists p, x. split; [now right|exact Hm].
      * intros [H|(p & x & [<-|Hp] & Hm)].
        -- left. now right.
        -- rewrite E in Hm. injection Hm as -> _. left. now left.
        -- right. exists p, x. auto.
    + destruct (IH locations codes n c) as [Hc Hn].
      rewrite Hc, Hn. clear Hc Hn IH.
      split; split.
      * intros [H|(p & x & Hp & Hm)]; [now left|right].
        exists p, x. split; [now right|exact Hm].
      * intros [H|(p & x & [<-|Hp] & Hm)]; [now left|congruence|right].
        exists p, x. auto.
      * intros [H|(p & x & Hp & Hm)]; [now left|right].
        exists p, x. split; [now right|exact Hm].
      * intros [H|(p & x & [<-|Hp] & Hm)]; [now left|congruence|right].
        exists p, x. auto.
Qed.

Lemma set_eqb_true_iff (a b : list string) :
  Wrapped.set_eqb a b = true <-> (forall x, In x a <-> In x b).
Proof.
  unfold Wrapped.set_eqb. rewrite andb_true_iff, !forallb_forall. split.
  - intros [Hab Hba] x. split; intros H.
    + apply mem_true_iff, Hab, H.
    + apply mem_true_iff, Hba, H.
  - intros H. split; intros x Hx; apply mem_true_iff, H, Hx.
Qed.

Lemma set_eqb_same_elements (a a' b : list string) :
  (forall x, In x a <-> In x a') ->
  Wrapped.set_eqb a b = Wrapped.set_eqb a' b.
Proof.
  intros H. apply eq_true_iff_eq. rewrite !set_eqb_true_iff.
  split; intros E x; [rewrite <- H|rewrite H]; apply E.
Qed.

Lemma scan_entries_same_elements (codes codes' : list string)
    (entries : list Wrapped.dir_entry) :
  (forall x, In x codes <-> In x codes') ->
  Wrapped.scan_entries codes entries = Wrapped.scan_entries codes' entries.
Proof.
  intros H. induction entries as [|e entries IH]; [reflexivity|].
  cbn [Wrapped.scan_entries]. rewrite IH. unfold Wrapped.entry_matches.
  destruct (py_index _ 0); [|reflexivity]. unfold bind.
  now rewrite (set_eqb_same_elements codes codes' _ H).
Qed.

(** X14. The photo looked up and the number of villages depend only on
    which popups are given, not on their order or on repetitions. *)
Theorem selection_ignores_order (popups popups' : list string)
    (entries : list Wrapped.dir_entry) :
  (forall p, In p popups <-> In p popups') ->
  Wrapped.scan_entries (snd (Wrapped.collect popups [] [])) entries
  = Wrapped.scan_entries (snd (Wrapped.collect popups' [] [])) entries /\
  List.length (fst (Wrapped.collect popups [] []))
  = List.length (fst (Wrapped.collect popups' [] [])).
Proof.
  intros H. split.
  - apply scan_entries_same_elements. intros c.
    destruct (collect_in popups [] [] c c) as [Hc _].
    destruct (collect_in popups' [] [] c c) as [Hc' _].
    rewrite Hc, Hc'. split; (intros [[]|(p & n & Hp & Hm)]; right;
      exists p, n; split; [apply H, Hp|exact Hm]).
  - destruct (collect_paired popups [] []) as [(_ & _ & _ & _ & N & _) _].
    { exists []. split; [intros p []|]. repeat split; constructor. }
    destruct (collect_paired popups' [] []) as [(_ & _ & _ & _ & N' & _) _].
    { exists []. split; [intros p []|]. repeat split; constructor. }
    apply Permutation.Permutation_length.
    apply (Permutation.NoDup_Permutation N N'). intros n.
    destruct (collect_in popups [] [] n n) as [_ Hn].
    destruct (collect_in popups' [] [] n n) as [_ Hn'].
    rewrite Hn, Hn'. split; (intros [[]|(p & c & Hp & Hm)]; right;
      exists p, c; split; [apply H, Hp|exact Hm]).
Qed.

Lemma selection_ignores_order_witness :
  (forall p, In p ["Edge Austin"; "Edge Lanna"]%string
             <-> In p ["Edge Lanna"; "Edge Austin"; "Edge Lanna"]%string) /\
  Wrapped.scan_entries
    (snd (Wrapped.collect ["Edge Austin"; "Edge Lanna"]%string [] []))
    [Wrapped.mk_entry "TH-AU.png" "static/images/TH-AU.png" true]
  = Wrapped.scan_entries
      (snd (Wrapped.collect
              ["Edge Lanna"; "Edge Austin"; "Edge Lanna"]%string [] []))
      [Wrapped.mk_entry "TH-AU.png" "static/images/TH-AU.png" true] /\
  List.length (fst (Wrapped.collect ["Edge Austin"; "Edge Lanna"]%string
                      [] []))
  = List.length
      (fst (Wrapped.collect
              ["Edge Lanna"; "Edge Austin"; "Edge Lanna"]%string [] [])).
Proof.
  assert (H : forall p,
    In p ["Edge Austin"; "Edge Lanna"]%string
    <-> In p ["Edge Lanna"; "Edge Austin"; "Edge Lanna"]%string).
  { intros p. simpl. tauto. }
  split; [exact H|].
  exact (selection_ignores_order _ _ _ H).
Defined.

(** ** The pipeline and its files *)

Lemma split_char_nonempty (sep : ascii) (s : string) :
  Wrapped.split_char sep s <> [].
Proof.
  destruct s as [|c s]; [discriminate|]. cbn [Wrapped.split_char].
  destruct (Ascii.eqb c sep); [discriminate|apply cons_head_nonempty].
Qed.

Lemma set_of_list_nonempty (l : list string) :
  l <> [] -> Wrapped.set_of_list l <> [].
Proof.
  assert (H : forall l acc, acc <> [] ->
            fold_left (fun s x => Wrapped.set_add x s) l acc <> []).
  { clear l. induction l as [|x l IH]; intros acc Hacc; [exact Hacc|].
    simpl. apply IH. unfold Wrapped.set_add.
    destruct (Wrapped.mem x acc); [exact Hacc|].
    destruct acc; discriminate. }
  destruct l as [|x l]; [contradiction|]. intros _.
  unfold Wrapped.set_of_list. simpl. apply H. discriminate.
Qed.

(** No file name stands for the empty set of codes. *)
Lemma scan_entries_no_codes (entries : list Wrapped.dir_entry) :
  Wrapped.scan_entries [] entries = Raise Wrapped.ValueError.
Proof.
  induction entries as [|e entries IH]; [reflexivity|].
  cbn [Wrapped.scan_entries]. rewrite IH. unfold Wrapped.entry_matches.
  destruct (Wrapped.split_char "." (Wrapped.entry_name e)) as [|f fs] eqn:E.
  { now apply split_char_nonempty in E. }
  cbn [py_index nth_error bind].
  pose proof (set_of_list_nonempty _ (split_char_nonempty "-" f)) as Hne.
  destruct (Wrapped.set_of_list (Wrapped.split_char "-" f));
    [contradiction|].
  destruct (Wrapped.entry_is_file e); reflexivity.
Qed.

Lemma collect_no_match (popups : list string) :
  Forall (fun p => Wrapped.first_match p Wrapped.popups_map = None) popups ->
  forall locations codes,
    Wrapped.collect popups locations codes = (locations, codes).
Proof.
  induction 1 as [|p ps Hp _ IH]; intros locations codes; [reflexivity|].
  cbn [Wrapped.collect]. rewrite Hp. apply IH.
Qed.

Lemma append_inj_l (a x y : string) :
  (a ++ x)%string = (a ++ y)%string -> x = y.
Proof.
  induction a as [|c a IH]; simpl; [auto|]. intros E. injection E as E. auto.
Qed.

Lemma default_paths_differ (image_id : string) :
  String.eqb ("/tmp/" ++ image_id ++ "_final.png")
             ("/tmp/" ++ image_id ++ "_intermediate.png") = false.
Proof.
  apply String.eqb_neq. intros E.
  apply append_inj_l, append_inj_l in E. discriminate E.
Qed.

Lemma prefix_dot_false (old' : string) (c : ascii) (t : string) :
  Text.not_dot c = true ->
  String.prefix (String "." old') (String c t) = false.
Proof.
  intros H. cbn [String.prefix].
  destruct (ascii_dec "." c) as [<-|_]; [discriminate H|reflexivity].
Qed.

(** A replacement whose pattern starts with a dot leaves a dot-free
    beginning of the text alone. *)
Lemma replace_after_stem (old' new stem t : string) :
  Text.all_chars Text.not_dot stem = true ->
  Wrapped.replace (String "." old') new (stem ++ t)
  = (stem ++ Wrapped.replace (String "." old') new t)%string.
Proof.
  unfold Wrapped.replace.
  induction stem as [|c stem IH]; [reflexivity|].
  cbn [Text.all_chars]. intros [Hc Hs]%andb_true_iff.
  cbn [String.append Wrapped.replace_from].
  rewrite (prefix_dot_false _ _ _ Hc), (IH Hs). reflexivity.
Qed.

Lemma tmp_path_no_dot (image_id : string) :
  Text.all_chars Text.not_dot image_id = true ->
  Text.all_chars Text.not_dot ("/tmp/" ++ image_id) = true.
Proof. intros H. rewrite all_chars_app, H. reflexivity. Qed.

(** The default final path is saved under its own name. *)
Lemma default_final_path_kept (image_id : string) :
  Text.all_chars Text.not_dot image_id = true ->
  Wrapped.replace ".jpg" ".png"
    (Wrapped.replace ".jpeg" ".png" ("/tmp/" ++ image_id ++ "_final.png"))
  = ("/tmp/" ++ image_id ++ "_final.png")%string.
Proof.
  intros H%tmp_path_no_dot.
  rewrite <- !append_assoc.
  rewrite (replace_after_stem "jpeg" ".png" _ _ H).
  change (Wrapped.replace ".jpeg" ".png" "_final.png")
    with "_final.png"%string.
  rewrite (replace_after_stem "jpg" ".png" _ _ H).
  reflexivity.
Qed.

Lemma paste_position_total (center_width center_height : Z)
    (canvas_width canvas_height : Z) :
  center_width <> 0 -> center_height <> 0 ->
  exists p,
    EdgeWrapped.paste_position center_width center_height
      canvas_width canvas_height = Ok p.
Proof.
  intros Hw Hh. unfold EdgeWrapped.paste_position.
  rewrite (int_div_ok _ center_width), (int_div_ok _ center_height)
    by assumption.
  eexists. reflexivity.
Qed.

Section Pipeline.

Variable font : Type.
Variable truetype : string -> Z -> result font.
Variable load_default : font.
Variable is_IOError : exn -> bool.
Variable textbbox : font -> string -> Z * Z * Z * Z.
Variable resize : Z -> Z -> result unit.
Variable svg_logo : Z -> result (Z * Z).
Variable asset : string -> result (Z * Z).
Variable scandir : string -> result (list Wrapped.dir_entry).

Lemma add_text_to_image_ok (img_width img_height : Z)
    (villages_count days_count events_count : Z) (fonts : font * font) :
  Wrapped.load_fonts font truetype load_default is_IOError
    (Wrapped.scaled 32 img_width) (Wrapped.scaled 48 img_width) = Ok fonts ->
  Wrapped.add_text_to_image font truetype load_default is_IOError textbbox
    svg_logo img_width img_height villages_count days_count events_count
  = Ok (Wrapped.metric_texts font textbbox (fst fonts) (snd fonts)
          img_width villages_count days_count events_count
        ++ Wrapped.logo_drawings font svg_logo img_width img_height)%list.
Proof.
  intros H. unfold Wrapped.add_text_to_image. rewrite H. reflexivity.
Qed.

Lemma subtitle_lines_head (text_width : string -> Q) (canvas_width : Z)
    (popups : list string) :
  exists line lines,
    EdgeWrapped.subtitle_lines text_width canvas_width popups
    = Ok (line :: lines).
Proof.
  unfold EdgeWrapped.subtitle_lines.
  destruct (Qle_bool _ _); [eexists; eexists; reflexivity|].
  pose proof (split_comma_space_nonempty
                (EdgeWrapped.subtitle_text popups)) as Hne.
  destruct (Str.split_comma_space _) as [|w ws]; [contradiction|].
  cbn [py_index nth_error bind tl].
  pose proof (wrap_loop_nonempty text_width (canvas_width - 40) ws [] w)
    as Hl.
  destruct (EdgeWrapped.wrap_loop _ _ _ _ _) as [|l ls]; [contradiction|].
  eexists; eexists; reflexivity.
Qed.

(** What [create_framed_image] composes once the photo has a size and the
    fonts are loaded. *)
Lemma create_framed_image_shape (center_width center_height : Z)
    (canvas_width canvas_height : Z) (popups : list string)
    (output_path : string) (fonts : font * font) :
  center_width <> 0 -> center_height <> 0 ->
  (forall p,
     EdgeWrapped.paste_position center_width center_height
       canvas_width canvas_height = Ok p ->
     resize (EdgeWrapped.new_width p) (EdgeWrapped.new_height p) = Ok tt) ->
  Wrapped.load_fonts font truetype load_default is_IOError 60 70
  = Ok fonts ->
  exists p line lines,
    EdgeWrapped.paste_position center_width center_height
      canvas_width canvas_height = Ok p /\
    EdgeWrapped.subtitle_lines
      (fun text =>
         inject_Z (Wrapped.bbox_width (textbbox (snd fonts) text)))
      canvas_width popups = Ok (line :: lines) /\
    let title_height :=
      Wrapped.bbox_height (textbbox (fst fonts) Wrapped.title_text) in
    let line_height :=
      Wrapped.bbox_height (textbbox (snd fonts) line) in
    let bottom := EdgeWrapped.y p + EdgeWrapped.new_height p in
    let title_y :=
      bottom
      + (canvas_height - bottom
         - Wrapped.total_text_height title_height line_height
             (line :: lines)) / 2 in
    Wrapped.create_framed_image font truetype load_default is_IOError
      textbbox resize center_width center_height canvas_width canvas_height
      popups output_path
    = Ok (Wrapped.mk_framed font p
            (Wrapped.Text font
               ((canvas_width
                 - Wrapped.bbox_width
                     (textbbox (fst fonts) Wrapped.title_text)) / 2)
               title_y Wrapped.title_text (fst fonts)
             :: Wrapped.draw_lines font textbbox (snd fonts) canvas_width
                  line_height
                  (title_y + title_height + Wrapped.text_spacing)
                  (line :: lines))
            (Wrapped.replace ".jpg" ".png"
               (Wrapped.replace ".jpeg" ".png" output_path))).
Proof.
  intros Hw Hh Hresize Hfonts.
  destruct (paste_position_total center_width center_height canvas_width
              canvas_height Hw Hh) as [p Hp].
  destruct (subtitle_lines_head
              (fun text =>
                 inject_Z (Wrapped.bbox_width (textbbox (snd fonts) text)))
              canvas_width popups) as (line & lines & Hl).
  exists p, line, lines. split; [exact Hp|split; [exact Hl|]].
  unfold Wrapped.create_framed_image.
  rewrite Hp. cbn [bind]. rewrite (Hresize p Hp). cbn [bind].
  rewrite Hfonts. cbn [bind]. rewrite Hl.
  reflexivity.
Qed.

(** X15. When no popup contains a known location name, the generation
    fails with [ValueError] whatever the image directory contains (no file
    name stands for the empty set of codes), and nothing is written. *)
Theorem no_known_location_fails (log : list Wrapped.fs_event)
    (image_id : string) (popups : list string) (days_count events_count : Z)
    (entries : list Wrapped.dir_entry) :
  Forall (fun p => Wrapped.first_match p Wrapped.popups_map = None) popups ->
  scandir "static/images" = Ok entries ->
  Wrapped.generate_edge_wrapped font truetype load_default is_IOError
    textbbox resize svg_logo asset scandir log image_id popups
    days_count events_count
  = (Raise Wrapped.ValueError, log).
Proof.
  intros Hnone Hdir. unfold Wrapped.generate_edge_wrapped.
  rewrite (collect_no_match popups Hnone).
  unfold Wrapped._get_ai_image. rewrite Hdir. cbn [bind].
  rewrite scan_entries_no_codes. reflexivity.
Qed.

(** X16. A successful generation, from the photo found for the codes, a
    readable frame, loadable fonts and a resize that Pillow accepts: the
    overlaid photo is saved at the
    intermediate path with the size of the photo, the framed image is saved
    at the final path with the size of the frame, the intermediate file is
    removed, and the final path, the one written, is returned. *)
Theorem generation_writes_final_and_cleans_up (image_id : string)
    (popups : list string) (days_count events_count : Z)
    (entries : list Wrapped.dir_entry) (ai_image_path : string)
    (w h W H : Z) (fonts1 fonts2 : font * font) :
  scandir "static/images" = Ok entries ->
  Wrapped.scan_entries (snd (Wrapped.collect popups [] [])) entries
  = Ok ai_image_path ->
  asset ai_image_path = Ok (w, h) ->
  w <> 0 -> h <> 0 ->
  Wrapped.load_fonts font truetype load_default is_IOError
    (Wrapped.scaled 32 w) (Wrapped.scaled 48 w) = Ok fonts1 ->
  Wrapped.load_fonts font truetype load_default is_IOError 60 70
  = Ok fonts2 ->
  asset "static/images/frame.png" = Ok (W, H) ->
  (forall p,
     EdgeWrapped.paste_position w h W H = Ok p ->
     resize (EdgeWrapped.new_width p) (EdgeWrapped.new_height p) = Ok tt) ->
  Text.all_chars Text.not_dot image_id = true ->
  Wrapped.generate_edge_wrapped font truetype load_default is_IOError
    textbbox resize svg_logo asset scandir [] image_id popups
    days_count events_count
  = (Ok ("/tmp/" ++ image_id ++ "_final.png")%string,
     [ Wrapped.removed ("/tmp/" ++ image_id ++ "_intermediate.png");
       Wrapped.saved ("/tmp/" ++ image_id ++ "_final.png") (W, H);
       Wrapped.saved ("/tmp/" ++ image_id ++ "_intermediate.png") (w, h) ]).
Proof.
  intros Hdir Hscan Hphoto Hw Hh Hf1 Hf2 Hframe Hresize Hid.
  unfold Wrapped.generate_edge_wrapped.
  destruct (Wrapped.collect popups [] []) as [locations codes].
  cbn [snd] in Hscan.
  unfold Wrapped._get_ai_image. rewrite Hdir. cbn [bind]. rewrite Hscan.
  unfold Wrapped._generate_edge_wrapped. cbn [Wrapped.or_default].
  unfold Wrapped.add_text_to_image_io.
  unfold Wrapped.open_image at 1. cbn [Wrapped.file_state_of].
  rewrite Hphoto, (add_text_to_image_ok _ _ _ _ _ _ Hf1).
  unfold Wrapped.create_framed_image_io.
  unfold Wrapped.open_image at 1. cbn [Wrapped.file_state_of].
  rewrite String.eqb_refl.
  unfold Wrapped.open_image at 1. cbn [Wrapped.file_state_of].
  change (String.eqb ("/tmp/" ++ image_id ++ "_intermediate.png")
            "static/images/frame.png") with false.
  cbv iota. rewrite Hframe.
  destruct (create_framed_image_shape w h W H popups
              ("/tmp/" ++ image_id ++ "_final.png") fonts2 Hw Hh Hresize
              Hf2)
    as (p & line & lines & _ & _ & Hframed).
  cbv zeta in Hframed. rewrite Hframed.
  cbn [Wrapped.output_path_png]. rewrite (default_final_path_kept _ Hid).
  unfold Wrapped.os_remove, Wrapped.open_image.
  cbn [Wrapped.file_state_of].
  rewrite default_paths_differ, String.eqb_refl. reflexivity.
Qed.

(** X17. When the frame cannot be opened after the overlaid photo was
    saved, the generation raises that error and the intermediate file stays
    behind: it is removed only after a successful framing. *)
Theorem framing_failure_leaves_intermediate (image_id : string)
    (popups : list string) (days_count events_count : Z)
    (entries : list Wrapped.dir_entry) (ai_image_path : string)
    (w h : Z) (fonts1 : font * font) (e : exn) :
  scandir "static/images" = Ok entries ->
  Wrapped.scan_entries (snd (Wrapped.collect popups [] [])) entries
  = Ok ai_image_path ->
  asset ai_image_path = Ok (w, h) ->
  Wrapped.load_fonts font truetype load_default is_IOError
    (Wrapped.scaled 32 w) (Wrapped.scaled 48 w) = Ok fonts1 ->
  asset "static/images/frame.png" = Raise e ->
  Wrapped.generate_edge_wrapped font truetype load_default is_IOError
    textbbox resize svg_logo asset scandir [] image_id popups
    days_count events_count
  = (Raise e,
     [ Wrapped.saved ("/tmp/" ++ image_id ++ "_intermediate.png") (w, h) ]).
Proof.
  intros Hdir Hscan Hphoto Hf1 Hframe.
  unfold Wrapped.generate_edge_wrapped.
  destruct (Wrapped.collect popups [] []) as [locations codes].
  cbn [snd] in Hscan.
  unfold Wrapped._get_ai_image. rewrite Hdir. cbn [bind]. rewrite Hscan.
  unfold Wrapped._generate_edge_wrapped. cbn [Wrapped.or_default].
  unfold Wrapped.add_text_to_image_io.
  unfold Wrapped.open_image at 1. cbn [Wrapped.file_state_of].
  rewrite Hphoto, (add_text_to_image_ok _ _ _ _ _ _ Hf1).
  unfold Wrapped.create_framed_image_io.
  unfold Wrapped.open_image at 1. cbn [Wrapped.file_state_of].
  rewrite String.eqb_refl.
  unfold Wrapped.open_image at 1. cbn [Wrapped.file_state_of].
  change (String.eqb ("/tmp/" ++ image_id ++ "_intermediate.png")
            "static/images/frame.png") with false.
  cbv iota. rewrite Hframe. reflexivity.
Qed.

End Pipeline.

Lemma no_known_location_fails_witness :
  Forall (fun p => Wrapped.first_match p Wrapped.popups_map = None)
    ["Edge Mars"]%string /\
  Examples.catalogue "static/images"
  = Ok [ Wrapped.mk_entry "frame.png" "static/images/frame.png" true;
         Wrapped.mk_entry "AR-AU.png" "static/images/AR-AU.png" true ] /\
  Wrapped.generate_edge_wrapped Z Examples.ttf Examples.default_font
    Examples.io_error Examples.half_wide Examples.positive_size
    Examples.logo_3_to_1
    Examples.assets Examples.catalogue [] "0f8fad5b" ["Edge Mars"]%string
    3 4
  = (Raise Wrapped.ValueError, []).
Proof.
  assert (H : Forall
                (fun p => Wrapped.first_match p Wrapped.popups_map = None)
                ["Edge Mars"]%string).
  { repeat constructor. }
  split; [exact H|]. split; [reflexivity|].
  exact (no_known_location_fails Z Examples.ttf Examples.default_font
           Examples.io_error Examples.half_wide Examples.positive_size
           Examples.logo_3_to_1
           Examples.assets Examples.catalogue [] "0f8fad5b"
           ["Edge Mars"]%string 3 4 _ H eq_refl).
Defined.

Lemma generation_writes_final_and_cleans_up_witness :
  Wrapped.generate_edge_wrapped Z Examples.ttf Examples.default_font
    Examples.io_error Examples.half_wide Examples.positive_size
    Examples.logo_3_to_1
    Examples.assets Examples.catalogue [] "0f8fad5b"
    ["Edge Austin"; "Edge Patagonia"]%string 3 4
  = (Ok "/tmp/0f8fad5b_final.png"%string,
     [ Wrapped.removed "/tmp/0f8fad5b_intermediate.png";
       Wrapped.saved "/tmp/0f8fad5b_final.png" (2300, 2500);
       Wrapped.saved "/tmp/0f8fad5b_intermediate.png" (1024, 1024) ]).
Proof.
  apply (generation_writes_final_and_cleans_up Z Examples.ttf
           Examples.default_font Examples.io_error Examples.half_wide
           Examples.positive_size Examples.logo_3_to_1 Examples.assets Examples.catalogue
           "0f8fad5b" ["Edge Austin"; "Edge Patagonia"]%string 3 4
           [ Wrapped.mk_entry "frame.png" "static/images/frame.png" true;
             Wrapped.mk_entry "AR-AU.png" "static/images/AR-AU.png" true ]
           "static/images/AR-AU.png" 1024 1024 2300 2500
           (32, 48) (60, 70));
    first [ reflexivity | discriminate
          | intros p E; vm_compute in E; injection E as <-; reflexivity ].
Defined.

Lemma framing_failure_leaves_intermediate_witness :
  Wrapped.generate_edge_wrapped Z Examples.ttf Examples.default_font
    Examples.io_error Examples.half_wide Examples.positive_size
    Examples.logo_3_to_1
    Examples.assets_without_frame Examples.catalogue [] "0f8fad5b"
    ["Edge Austin"; "Edge Patagonia"]%string 3 4
  = (Raise Wrapped.FileNotFoundError,
     [ Wrapped.saved "/tmp/0f8fad5b_intermediate.png" (1024, 1024) ]).
Proof.
  apply (framing_failure_leaves_intermediate Z Examples.ttf
           Examples.default_font Examples.io_error Examples.half_wide
           Examples.positive_size Examples.logo_3_to_1 Examples.assets_without_frame
           Examples.catalogue "0f8fad5b"
           ["Edge Austin"; "Edge Patagonia"]%string 3 4
           [ Wrapped.mk_entry "frame.png" "static/images/frame.png" true;
             Wrapped.mk_entry "AR-AU.png" "static/images/AR-AU.png" true ]
           "static/images/AR-AU.png" 1024 1024 (32, 48)
           Wrapped.FileNotFoundError);
    reflexivity.
Defined.

(** * Properties of [add_text_to_image] and of the caption block *)

Section Overlay.

Variable font : Type.
Variable truetype : string -> Z -> result font.
Variable load_default : font.
Variable is_IOError : exn -> bool.
Variable textbbox : font -> string -> Z * Z * Z * Z.
Variable resize : Z -> Z -> result unit.
Variable svg_logo : Z -> result (Z * Z).
Variable asset : string -> result (Z * Z).
Variable scandir : string -> result (list Wrapped.dir_entry).

(** X18. The three columns of the overlay tile the image up to the two
    pixels lost by the integer division, and each of the six texts is
    centered in its own third: label and number of the villages in the
    first, of the days in the second, of the events in the third. *)
Theorem metric_texts_centered (font_label font_number : font)
    (img_width villages_count days_count events_count : Z) :
  let column_width := img_width / 3 in
  img_width - 2 <= 3 * column_width <= img_width /\
  Forall2
    (fun d k =>
       Text.centered (k * column_width) ((k + 1) * column_width)
         match d with
         | Wrapped.Text _ x _ _ _ => x
         | Wrapped.Paste _ x _ _ => x
         end
         match d with
         | Wrapped.Text _ _ _ text f => Wrapped.bbox_width (textbbox f text)
         | Wrapped.Paste _ _ _ size => fst size
         end)
    (Wrapped.metric_texts font textbbox font_label font_number img_width
       villages_count days_count events_count)
    [0; 0; 1; 1; 2; 2].
Proof.
  intros column_width. split.
  - unfold column_width.
    pose proof (Z.div_mod img_width 3 ltac:(lia)).
    pose proof (Z.mod_pos_bound img_width 3 ltac:(lia)). lia.
  - unfold Wrapped.metric_texts. fold column_width.
    repeat constructor; unfold Text.centered;
      match goal with
      | |- context [(column_width - ?wd) / 2] =>
          pose proof (Z.div_mod (column_width - wd) 2 ltac:(lia));
          pose proof (Z.mod_pos_bound (column_width - wd) 2 ltac:(lia));
          lia
      end.
Qed.

(** X19. When rendering or opening the logo raises, the overlay is still
    produced: exactly the six texts, and no logo. *)
Theorem logo_failure_is_soft (img_width img_height : Z)
    (villages_count days_count events_count : Z) (fonts : font * font)
    (e : exn) :
  Wrapped.load_fonts font truetype load_default is_IOError
    (Wrapped.scaled 32 img_width) (Wrapped.scaled 48 img_width) = Ok fonts ->
  svg_logo (Wrapped.scaled 80 img_width) = Raise e ->
  Wrapped.add_text_to_image font truetype load_default is_IOError textbbox
    svg_logo img_width img_height villages_count days_count events_count
  = Ok (Wrapped.metric_texts font textbbox (fst fonts) (snd fonts)
          img_width villages_count days_count events_count).
Proof.
  intros Hfonts Hlogo.
  rewrite (add_text_to_image_ok font truetype load_default is_IOError
             textbbox svg_logo _ _ _ _ _ _ Hfonts).
  unfold Wrapped.logo_drawings. rewrite Hlogo. cbn [bind].
  now rewrite app_nil_r.
Qed.

(** X20. The two fonts are loaded in one [try]: when the regular font
    loads but the bold font raises an [IOError], the regular font is given
    up as well and all six texts are drawn with the default font. *)
Theorem bold_font_failure_resets_both_fonts (img_width img_height : Z)
    (villages_count days_count events_count : Z) (regular : font)
    (e : exn) :
  truetype "static/fonts/science-gothic.ttf" (Wrapped.scaled 32 img_width)
  = Ok regular ->
  truetype "static/fonts/science-gothic-bold.ttf"
    (Wrapped.scaled 48 img_width) = Raise e ->
  is_IOError e = true ->
  Wrapped.add_text_to_image font truetype load_default is_IOError textbbox
    svg_logo img_width img_height villages_count days_count events_count
  = Ok (Wrapped.metric_texts font textbbox load_default load_default
          img_width villages_count days_count events_count
        ++ Wrapped.logo_drawings font svg_logo img_width img_height)%list.
Proof.
  intros Hregular Hbold Hio.
  apply (add_text_to_image_ok font truetype load_default is_IOError
           textbbox svg_logo _ _ _ _ _ (load_default, load_default)).
  unfold Wrapped.load_fonts. rewrite Hregular. cbn [bind].
  rewrite Hbold. cbn [bind]. now rewrite Hio.
Qed.

Lemma last_skip_head {A : Type} (a d : A) (l : list A) :
  l <> [] -> last (a :: l) d = last l d.
Proof. destruct l; [contradiction|reflexivity]. Qed.

Lemma draw_lines_spec (subtitle_font : font) (canvas_width line_height : Z)
    (lines : list string) :
  forall (current_y : Z) (line : string),
    map (Wrapped.drawing_text font)
      (Wrapped.draw_lines font textbbox subtitle_font canvas_width
         line_height current_y (line :: lines)) = line :: lines /\
    Wrapped.drawing_y font
      (last (Wrapped.draw_lines font textbbox subtitle_font canvas_width
               line_height current_y (line :: lines))
         (Wrapped.Paste font 0 0 (0, 0)))
    = current_y
      + (line_height + Wrapped.line_spacing) * Z.of_nat (List.length lines).
Proof.
  induction lines as [|l lines IH]; intros current_y line.
  - simpl. split; [reflexivity|lia].
  - destruct (IH (current_y + line_height + Wrapped.line_spacing) l)
      as [Ht Hy].
    set (rest := Wrapped.draw_lines font textbbox subtitle_font
                   canvas_width line_height
                   (current_y + line_height + Wrapped.line_spacing)
                   (l :: lines)) in *.
    change (Wrapped.draw_lines font textbbox subtitle_font canvas_width
              line_height current_y (line :: l :: lines))
      with (Wrapped.Text font
              ((canvas_width
                - Wrapped.bbox_width (textbbox subtitle_font line)) / 2)
              current_y line subtitle_font :: rest).
    split.
    + cbn [map Wrapped.drawing_text]. now rewrite Ht.
    + rewrite last_skip_head.
      * rewrite Hy. cbn [List.length]. lia.
      * intros E. rewrite E in Ht. discriminate Ht.
Qed.

(** X21. Once the photo is resized and the fonts are loaded, the title and
    the caption lines form one block below the photo:
    its texts are the title followed by the caption lines, and, with every
    line as high as the first one, it ends [total_text_height] below the
    top of the title and is centered between the bottom of the photo and
    the bottom of the background. *)
Theorem caption_block_centered (center_width center_height : Z)
    (canvas_width canvas_height : Z) (popups : list string)
    (output_path : string) (fonts : font * font) :
  center_width <> 0 -> center_height <> 0 ->
  (forall p,
     EdgeWrapped.paste_position center_width center_height
       canvas_width canvas_height = Ok p ->
     resize (EdgeWrapped.new_width p) (EdgeWrapped.new_height p) = Ok tt) ->
  Wrapped.load_fonts font truetype load_default is_IOError 60 70
  = Ok fonts ->
  exists f line lines,
    Wrapped.create_framed_image font truetype load_default is_IOError
      textbbox resize center_width center_height canvas_width canvas_height
      popups output_path = Ok f /\
    EdgeWrapped.subtitle_lines
      (fun text =>
         inject_Z (Wrapped.bbox_width (textbbox (snd fonts) text)))
      canvas_width popups = Ok (line :: lines) /\
    map (Wrapped.drawing_text font) (Wrapped.drawings font f)
    = Wrapped.title_text :: line :: lines /\
    let title_y :=
      Wrapped.drawing_y font
        (hd (Wrapped.Paste font 0 0 (0, 0)) (Wrapped.drawings font f)) in
    let last_y :=
      Wrapped.drawing_y font
        (last (Wrapped.drawings font f) (Wrapped.Paste font 0 0 (0, 0))) in
    let line_height :=
      Wrapped.bbox_height (textbbox (snd fonts) line) in
    let title_height :=
      Wrapped.bbox_height (textbbox (fst fonts) Wrapped.title_text) in
    let photo_bottom :=
      EdgeWrapped.y (Wrapped.photo font f)
      + EdgeWrapped.new_height (Wrapped.photo font f) in
    last_y + line_height - title_y
    = Wrapped.total_text_height title_height line_height (line :: lines) /\
    Text.centered photo_bottom canvas_height title_y
      (last_y + line_height - title_y).
Proof.
  intros Hw Hh Hresize Hfonts.
  destruct (create_framed_image_shape font truetype load_default is_IOError
              textbbox resize center_width center_height canvas_width
              canvas_height popups output_path fonts Hw Hh Hresize Hfonts)
    as (p & line & lines & _ & Hl & Hf).
  cbv zeta in Hf.
  eexists. exists line, lines. split; [exact Hf|]. split; [exact Hl|].
  cbn [Wrapped.drawings Wrapped.photo hd].
  set (title_height :=
         Wrapped.bbox_height (textbbox (fst fonts) Wrapped.title_text)).
  set (line_height := Wrapped.bbox_height (textbbox (snd fonts) line)).
  set (total := Wrapped.total_text_height title_height line_height
                  (line :: lines)).
  set (bottom := EdgeWrapped.y p + EdgeWrapped.new_height p).
  set (title_y := bottom + (canvas_height - bottom - total) / 2).
  destruct (draw_lines_spec (snd fonts) canvas_width line_height lines
              (title_y + title_height + Wrapped.text_spacing) line)
    as [Ht Hy].
  split; [|cbv zeta; split].
  - cbn [map Wrapped.drawing_text]. now rewrite Ht.
  - rewrite last_skip_head
      by (intros E; rewrite E in Ht; discriminate Ht).
    rewrite Hy. cbn [Wrapped.drawing_y].
    unfold total, Wrapped.total_text_height.
    cbn [List.length]. unfold Wrapped.text_spacing, Wrapped.line_spacing.
    lia.
  - rewrite last_skip_head
      by (intros E; rewrite E in Ht; discriminate Ht).
    rewrite Hy. cbn [Wrapped.drawing_y]. unfold Text.centered.
    assert (E : title_y + title_height + Wrapped.text_spacing
                + (line_height + Wrapped.line_spacing)
                  * Z.of_nat (List.length lines)
                + line_height - title_y = total).
    { unfold total, Wrapped.total_text_height. cbn [List.length].
      unfold Wrapped.text_spacing, Wrapped.line_spacing. lia. }
    rewrite E. unfold title_y.
    pose proof (Z.div_mod (canvas_height - bottom - total) 2 ltac:(lia)).
    pose proof (Z.mod_pos_bound (canvas_height - bottom - total) 2
                  ltac:(lia)).
    lia.
Qed.

End Overlay.

Lemma logo_failure_is_soft_witness :
  Wrapped.add_text_to_image Z Examples.ttf Examples.default_font
    Examples.io_error Examples.half_wide Examples.no_logo 1024 768 2 10 5
  = Ok (Wrapped.metric_texts Z Examples.half_wide 32 48 1024 2 10 5).
Proof.
  apply (logo_failure_is_soft Z Examples.ttf Examples.default_font
           Examples.io_error Examples.half_wide Examples.no_logo
           1024 768 2 10 5 (32, 48) (OtherError "URLError"));
    reflexivity.
Defined.

Lemma bold_font_failure_resets_both_fonts_witness :
  Wrapped.add_text_to_image Z Examples.no_bold_font Examples.default_font
    Examples.io_error Examples.half_wide Examples.logo_3_to_1
    1024 768 2 10 5
  = Ok (Wrapped.metric_texts Z Examples.half_wide Examples.default_font
          Examples.default_font 1024 2 10 5
        ++ Wrapped.logo_drawings Z Examples.logo_3_to_1 1024 768)%list.
Proof.
  apply (bold_font_failure_resets_both_fonts Z Examples.no_bold_font
           Examples.default_font Examples.io_error Examples.half_wide
           Examples.logo_3_to_1 1024 768 2 10 5 32
           (OtherError "IOError"));
    reflexivity.
Defined.

Lemma caption_block_centered_witness :
  exists f line lines,
    Wrapped.create_framed_image Z Examples.ttf Examples.default_font
      Examples.io_error Examples.half_wide Examples.positive_size
      1024 1024 2300 2500
      Examples.four_popups "/tmp/0f8fad5b_final.png" = Ok f /\
    EdgeWrapped.subtitle_lines
      (fun text =>
         inject_Z (Wrapped.bbox_width (Examples.half_wide 70 text)))
      2300 Examples.four_popups = Ok (line :: lines) /\
    map (Wrapped.drawing_text Z) (Wrapped.drawings Z f)
    = Wrapped.title_text :: line :: lines /\
    let title_y :=
      Wrapped.drawing_y Z
        (hd (Wrapped.Paste Z 0 0 (0, 0)) (Wrapped.drawings Z f)) in
    let last_y :=
      Wrapped.drawing_y Z
        (last (Wrapped.drawings Z f) (Wrapped.Paste Z 0 0 (0, 0))) in
    let line_height :=
      Wrapped.bbox_height (Examples.half_wide 70 line) in
    let title_height :=
      Wrapped.bbox_height (Examples.half_wide 60 Wrapped.title_text) in
    let photo_bottom :=
      EdgeWrapped.y (Wrapped.photo Z f)
      + EdgeWrapped.new_height (Wrapped.photo Z f) in
    last_y + line_height - title_y
    = Wrapped.total_text_height title_height line_height (line :: lines) /\
    Text.centered photo_bottom 2500 title_y
      (last_y + line_height - title_y).
Proof.
  apply (caption_block_centered Z Examples.ttf Examples.default_font
           Examples.io_error Examples.half_wide Examples.positive_size
           1024 1024 2300 2500
           Examples.four_popups "/tmp/0f8fad5b_final.png" (60, 70));
    first [ reflexivity | discriminate
          | intros p E; vm_compute in E; injection E as <-; reflexivity ].
Defined.

Section OutputNames.

Variable font : Type.
Variable truetype : string -> Z -> result font.
Variable load_default : font.
Variable is_IOError : exn -> bool.
Variable textbbox : font -> string -> Z * Z * Z * Z.
Variable resize : Z -> Z -> result unit.
Variable svg_logo : Z -> result (Z * Z).
Variable asset : string -> result (Z * Z).

(** X22. In a successful run, a final output name ending in ".jpg" is
    returned unchanged to the caller, but the framed image is saved under
    the name with ".png" in its place: the path returned as final image is
    not the path written. *)
Theorem jpg_output_is_saved_as_png (image_id ai_image_path stem : string)
    (villages_count days_count events_count : Z) (popups : list string)
    (w h W H : Z) (fonts1 fonts2 : font * font) :
  asset ai_image_path = Ok (w, h) ->
  w <> 0 -> h <> 0 ->
  Wrapped.load_fonts font truetype load_default is_IOError
    (Wrapped.scaled 32 w) (Wrapped.scaled 48 w) = Ok fonts1 ->
  Wrapped.load_fonts font truetype load_default is_IOError 60 70
  = Ok fonts2 ->
  asset "static/images/frame.png" = Ok (W, H) ->
  (forall p,
     EdgeWrapped.paste_position w h W H = Ok p ->
     resize (EdgeWrapped.new_width p) (EdgeWrapped.new_height p) = Ok tt) ->
  Text.all_chars Text.not_dot stem = true ->
  Wrapped._generate_edge_wrapped font truetype load_default is_IOError
    textbbox resize svg_logo asset [] image_id ai_image_path villages_count
    days_count events_count popups "static/images/frame.png" None
    (Some (stem ++ ".jpg")%string)
  = (Ok (("/tmp/" ++ image_id ++ "_intermediate.png")%string,
         (stem ++ ".jpg")%string),
     [ Wrapped.saved (stem ++ ".png") (W, H);
       Wrapped.saved ("/tmp/" ++ image_id ++ "_intermediate.png") (w, h) ]).
Proof.
  intros Hphoto Hw Hh Hf1 Hf2 Hframe Hresize Hstem.
  unfold Wrapped._generate_edge_wrapped.
  assert (Hfinal : Wrapped.or_default (Some (stem ++ ".jpg")%string)
                     ("/tmp/" ++ image_id ++ "_final.png")
                   = (stem ++ ".jpg")%string).
  { unfold Wrapped.or_default. destruct stem; reflexivity. }
  rewrite Hfinal. cbn [Wrapped.or_default].
  unfold Wrapped.add_text_to_image_io.
  unfold Wrapped.open_image at 1. cbn [Wrapped.file_state_of].
  rewrite Hphoto,
    (add_text_to_image_ok font truetype load_default is_IOError textbbox
       svg_logo _ _ _ _ _ _ Hf1).
  unfold Wrapped.create_framed_image_io.
  unfold Wrapped.open_image at 1. cbn [Wrapped.file_state_of].
  rewrite String.eqb_refl.
  unfold Wrapped.open_image at 1. cbn [Wrapped.file_state_of].
  change (String.eqb ("/tmp/" ++ image_id ++ "_intermediate.png")
            "static/images/frame.png") with false.
  cbv iota. rewrite Hframe.
  destruct (create_framed_image_shape font truetype load_default is_IOError
              textbbox resize w h W H popups (stem ++ ".jpg") fonts2 Hw Hh
              Hresize Hf2)
    as (p & line & lines & _ & _ & Hframed).
  cbv zeta in Hframed. rewrite Hframed.
  cbn [Wrapped.output_path_png].
  rewrite (replace_after_stem "jpeg" ".png" _ _ Hstem).
  change (Wrapped.replace ".jpeg" ".png" ".jpg") with ".jpg"%string.
  rewrite (replace_after_stem "jpg" ".png" _ _ Hstem).
  reflexivity.
Qed.

End OutputNames.

Lemma jpg_output_is_saved_as_png_witness :
  Wrapped._generate_edge_wrapped Z Examples.ttf Examples.default_font
    Examples.io_error Examples.half_wide Examples.positive_size
    Examples.logo_3_to_1
    Examples.assets [] "0f8fad5b" "static/images/AR-AU.png" 2 3 4
    ["Edge Austin"; "Edge Patagonia"]%string "static/images/frame.png"
    None (Some ("/tmp/wrapped" ++ ".jpg")%string)
  = (Ok (("/tmp/" ++ "0f8fad5b" ++ "_intermediate.png")%string,
         ("/tmp/wrapped" ++ ".jpg")%string),
     [ Wrapped.saved ("/tmp/wrapped" ++ ".png") (2300, 2500);
       Wrapped.saved ("/tmp/" ++ "0f8fad5b" ++ "_intermediate.png")
         (1024, 1024) ]).
Proof.
  apply (jpg_output_is_saved_as_png Z Examples.ttf Examples.default_font
           Examples.io_error Examples.half_wide Examples.positive_size
           Examples.logo_3_to_1
           Examples.assets "0f8fad5b" "static/images/AR-AU.png"
           "/tmp/wrapped" 2 3 4 ["Edge Austin"; "Edge Patagonia"]%string
           1024 1024 2300 2500 (32, 48) (60, 70));
    first [ reflexivity | discriminate
          | intros p E; vm_compute in E; injection E as <-; reflexivity ].
Defined.
